(** * cprompt: the element-resolution engine of [main.c]

    A shallow embedding of the prompt renderer: the resolvers
    ([format_error], [get_formatted_time], [get_hostname], ...), the
    dispatcher [make_exploded_prompt], the release loop
    [exploded_prompt_free] and [main].

    C memory is modelled explicitly.  A [char*] is either [NULL], a pointer
    to process-lifetime storage (string constants, the environment, the
    static buffer of [ttyname]) or a heap block returned by [malloc].  The
    program state carries the live heap blocks, the log of [free] calls,
    the ambient [errno], the outcomes of the upcoming allocation requests
    and what has been written to standard output.  A computation that
    leaves the behaviour defined by C (out-of-bounds store, invalid [free],
    read through [NULL]) has no result: it evaluates to [None]. *)

From Stdlib Require Import ZArith Ascii String Lia.
From stdpp Require Import base option list gmap strings.

Open Scope Z_scope.

(** ** C strings *)

(** String constants of the source are written as Rocq string literals and
    read as their sequence of characters. *)
Definition lit (s : string) : list ascii := list_ascii_of_string s.
Coercion lit : string >-> list.

Definition NUL : ascii := Ascii.zero.

Definition is_nul (c : ascii) : bool := bool_decide (c = NUL).

(** The C string held by an array of cells: the characters before the first
    terminator. *)
Fixpoint cstr (cells : list ascii) : list ascii :=
  match cells with
  | [] => []
  | c :: cells' => if is_nul c then [] else c :: cstr cells'
  end.

Definition strnlen (s : list ascii) (maxlen : nat) : nat :=
  Nat.min (length s) maxlen.

Fixpoint is_prefix (little big : list ascii) : bool :=
  match little, big with
  | [], _ => true
  | _ :: _, [] => false
  | a :: little', b :: big' => bool_decide (a = b) && is_prefix little' big'
  end.

Fixpoint strstr_from (i : nat) (big little : list ascii) : option nat :=
  if is_prefix little big then Some i
  else match big with
       | [] => None
       | _ :: big' => strstr_from (S i) big' little
       end.

(** [strnstr big little len]: offset of the first occurrence of [little] in
    the first [len] characters of [big]; an empty [little] is found at
    offset 0. *)
Definition strnstr (big little : list ascii) (len : nat) : option nat :=
  strstr_from 0 (take len big) little.

(** [strchr] followed by the store of a terminator at the position found:
    the string is cut before the first occurrence of [c]. *)
Fixpoint cut_at (c : ascii) (s : list ascii) : list ascii :=
  match s with
  | [] => []
  | x :: s' => if bool_decide (x = c) then [] else x :: cut_at c s'
  end.

(** ** Pointers, heap and program state *)

Inductive cptr :=
  | NULL
  | Static (s : list ascii)
  | Heap (b : nat).

#[global] Instance cptr_eq_dec : EqDecision cptr.
Proof. solve_decision. Defined.

Definition is_null (p : cptr) : bool :=
  match p with NULL => true | _ => false end.

Record block := Block { cap : nat; content : list ascii }.

Record mem := Mem {
  blocks : gmap nat block;   (* live heap blocks *)
  next : nat;                (* identifier of the next block malloc returns *)
  freed : list nat;          (* heap blocks passed to free, oldest first *)
  denied : nat;              (* allocation requests that failed so far *)
  errno : Z;                 (* the ambient last-error code *)
  budget : list bool;        (* outcomes of the upcoming allocation requests;
                                exhausted means granted *)
  out : list ascii           (* bytes written to standard output *)
}.

Definition M (A : Type) : Type := mem -> option (A * mem).

#[global] Instance M_ret : MRet M := fun A a st => Some (a, st).
#[global] Instance M_bind : MBind M := fun A B f m st =>
  match m st with
  | Some (a, st') => f a st'
  | None => None
  end.

Definition undefined {A} : M A := fun _ => None.

Definition ENOMEM : Z := 12.

(** Whether the next allocation request is granted. *)
Definition grants (st : mem) : bool :=
  match budget st with
  | false :: _ => false
  | _ => true
  end.

Definition malloc (size : nat) : M cptr := fun st =>
  if grants st then
    Some (Heap (next st),
          Mem (<[next st := Block size []]> (blocks st)) (S (next st))
              (freed st) (denied st) (errno st) (tail (budget st)) (out st))
  else
    Some (NULL,
          Mem (blocks st) (next st) (freed st) (S (denied st)) ENOMEM
              (tail (budget st)) (out st)).

Definition free (p : cptr) : M unit := fun st =>
  match p with
  | NULL => Some (tt, st)
  | Static _ => None
  | Heap b =>
      match blocks st !! b with
      | Some _ =>
          Some (tt, Mem (delete b (blocks st)) (next st) (freed st ++ [b])
                        (denied st) (errno st) (budget st) (out st))
      | None => None
      end
  end.

(** Read the C string a pointer designates. *)
Definition load (p : cptr) : M (list ascii) := fun st =>
  match p with
  | NULL => None
  | Static s => Some (s, st)
  | Heap b =>
      match blocks st !! b with
      | Some bl => Some (content bl, st)
      | None => None
      end
  end.

(** Write a C string (and its terminator) at the start of a heap buffer. *)
Definition store (p : cptr) (s : list ascii) : M unit := fun st =>
  match p with
  | Heap b =>
      match blocks st !! b with
      | Some bl =>
          if bool_decide (length s < cap bl)%nat
          then Some (tt, Mem (<[b := Block (cap bl) s]> (blocks st)) (next st)
                             (freed st) (denied st) (errno st) (budget st)
                             (out st))
          else None
      | None => None
      end
  | _ => None
  end.

Definition get_errno : M Z := fun st => Some (errno st, st).

Definition set_errno (e : Z) : M unit := fun st =>
  Some (tt, Mem (blocks st) (next st) (freed st) (denied st) e (budget st)
                (out st)).

Definition set_budget (bs : list bool) : M unit := fun st =>
  Some (tt, Mem (blocks st) (next st) (freed st) (denied st) (errno st) bs
                (out st)).

Definition write_stdout (s : list ascii) : M unit := fun st =>
  Some (tt, Mem (blocks st) (next st) (freed st) (denied st) (errno st)
                (budget st) (out st ++ s)).

(** [strlcpy dst src size] and [strlcat dst src size] with a heap
    destination: at most [size - 1] characters end up in [dst]. *)
Definition strlcpy (dst : cptr) (src : list ascii) (size : nat) : M unit :=
  if bool_decide (size = 0%nat) then mret tt
  else store dst (take (size - 1) src).

Definition strlcat (dst : cptr) (src : list ascii) (size : nat) : M unit :=
  d ← load dst;
  if bool_decide (size <= length d)%nat then mret tt
  else store dst (d ++ take (size - length d - 1) src).

(** [strndup s n]: an allocation request followed by the copy. *)
Definition strndup (s : list ascii) (n : nat) : M cptr :=
  p ← malloc (S (strnlen s n));
  if is_null p then mret NULL
  else store p (take n s);; mret p.

Definition lift {A} (o : option A) : M A := fun st =>
  match o with
  | Some a => Some (a, st)
  | None => None
  end.

(** ** Platform and operating system *)

(** What [limits.h], [libproc.h], [config.h] and the C library fix at build
    time.  [strerrorname_np] is consulted only when
    [HAVE_STRERRORNAME_NP] holds, and is taken to name every code it is
    asked about; [APPLE] stands for [__APPLE__]; [basename_of] is what
    [basename_r] computes from a path: the basename, or the error code it
    fails with. *)
Record platform := Platform {
  PATH_MAX : nat;
  PROC_PIDPATHINFO_MAXSIZE : nat;
  HAVE_STRERRORNAME_NP : bool;
  strerrorname_np : Z -> list ascii;
  APPLE : bool;
  basename_of : list ascii -> list ascii + Z
}.

Record passwd := Passwd { pw_name : list ascii; pw_dir : list ascii }.

(** [sysconf] answers a limit, or -1 leaving [errno] alone (no definite
    limit), or -1 after setting [errno]. *)
Inductive sysconf_answer :=
  | Limit (n : nat)
  | Indeterminate
  | SysconfError (e : Z).

(** [getpwuid_r] reports errors through its return value; whether it also
    sets [errno] is up to the C library. *)
Inductive getpw_answer :=
  | PwFound (pw : passwd)
  | PwNotFound
  | PwError (status : positive) (sets : option Z).

(** The answers of the operating system while one element is resolved.  A
    fallible call is a sum: [inl] the value, [inr] the error code it leaves
    in [errno].  [alloc] lists the outcomes of the allocation requests made
    meanwhile, and [expand clock fmt] is what [strftime] would write for a
    pattern had it room for it. *)
Record world := World {
  alloc : list bool;
  clock : Z + Z;
  expand : Z -> list ascii -> list ascii;
  host_name_max : sysconf_answer;
  hostname : list ascii + Z;
  stdout_tty : unit + Z;
  tty_name : list ascii + Z;
  parent_path : list ascii + Z;
  getpw_r_size_max : sysconf_answer;
  pw_entry : getpw_answer;
  env_HOME : option (list ascii);
  cwd : list ascii + Z;
  euid : Z
}.

Definition os_fail {A} (e : Z) (r : A) : M A := set_errno e;; mret r.

Definition ERANGE : Z := 34.

Definition time (w : world) : M Z :=
  match clock w with
  | inl t => mret t
  | inr e => os_fail e (-1)
  end.

(** [strftime buf max fmt tm]: the expansion is placed in [buf] when it fits
    with its terminator, and its length returned; otherwise 0. *)
Definition strftime (w : world) (buf : cptr) (max : nat) (fmt : cptr)
    (clock : Z) : M Z :=
  f ← load fmt;
  let s := expand w clock f in
  if bool_decide (length s < max)%nat
  then store buf s;; mret (Z.of_nat (length s))
  else mret 0.

Definition sysconf (a : sysconf_answer) : M Z :=
  match a with
  | Limit n => mret (Z.of_nat n)
  | Indeterminate => mret (-1)
  | SysconfError e => os_fail e (-1)
  end.

(** A host name that does not fit the buffer with its terminator would be
    left unterminated: no defined reading of the buffer follows. *)
Definition gethostname (w : world) (buf : cptr) (len : nat) : M Z :=
  match hostname w with
  | inl h => store buf h;; mret 0
  | inr e => os_fail e (-1)
  end.

Definition isatty (w : world) : M bool :=
  match stdout_tty w with
  | inl _ => mret true
  | inr e => os_fail e false
  end.

Definition ttyname (w : world) : M cptr :=
  match tty_name w with
  | inl t => mret (Static t)
  | inr e => os_fail e NULL
  end.

Definition proc_pidpath (w : world) (buf : cptr) (size : nat) : M Z :=
  match parent_path w with
  | inl p => store buf p;; mret (Z.of_nat (length p))
  | inr e => os_fail e 0
  end.

Definition getpwuid_r (w : world) (buf : cptr) (bufsz : nat)
    : M (Z * option passwd) :=
  match pw_entry w with
  | PwFound pw => mret (0, Some pw)
  | PwNotFound => mret (0, None)
  | PwError status sets =>
      match sets with
      | Some e => set_errno e
      | None => mret tt
      end;;
      mret (Z.pos status, None)
  end.

Definition getenv_HOME (w : world) : M cptr :=
  mret (match env_HOME w with
        | Some h => Static h
        | None => NULL
        end).

(** [getcwd buf size] on a local array: the cells after the terminator keep
    what they held. *)
Definition getcwd (w : world) (buf : list ascii) (size : nat)
    : M (option (list ascii)) :=
  match cwd w with
  | inl d =>
      if bool_decide (length d < size)%nat
      then mret (Some (d ++ NUL :: drop (S (length d)) buf))
      else os_fail ERANGE None
  | inr e => os_fail e None
  end.

Definition geteuid (w : world) : M Z := mret (euid w).

(** ** Data model of [main.c] *)

Definition MAX_STRFTIME_SIZE : nat := 50.

Inductive PromptElementType :=
  | StringLiteral
  | Space
  | Bell
  | HostnameUpToDot
  | FullHostname
  | TtyBasename
  | ShellName
  | WeekMonthDay
  | StrftimeDate
  | HourMinuteSecond24
  | HourMinuteSecond12
  | TimeAmPm
  | HourMinute24
  | Username
  | PwdTrunc
  | PwdTruncBasename
  | UserPrompt.

(** [arg] is a [void*] initialised at build time: [NULL] or a string
    constant. *)
Record PromptElement := Element {
  type : PromptElementType;
  arg : option (list ascii)
}.

Definition arg_ptr (e : PromptElement) : cptr :=
  match arg e with
  | Some s => Static s
  | None => NULL
  end.

Record prompt_string := PS { str : cptr; needs_free : bool }.

Definition set_str (p : cptr) (ps : prompt_string) : prompt_string :=
  PS p (needs_free ps).

Definition set_needs_free (b : bool) (ps : prompt_string) : prompt_string :=
  PS (str ps) b.

Definition HOME_DIR_FAILED_MESSAGE_NO_ALLOC : Z := -2.
Definition HOME_DIR_FAILED_MESSAGE_ALLOC : Z := -1.
Definition HOME_DIR_NO_ALLOC : Z := 0.
Definition HOME_DIR_ALLOC : Z := 1.

(** The catalog of [user_config.h]. *)
Definition ESC : ascii := ascii_of_nat 27.

Definition prompt : list PromptElement :=
  [ Element StringLiteral (Some (ESC :: lit "[1;32m"));
    Element Username None;
    Element StringLiteral (Some (lit "@"));
    Element HostnameUpToDot None;
    Element StringLiteral (Some (ESC :: lit "[1;34m"));
    Element Space None;
    Element PwdTrunc None;
    Element Space None;
    Element UserPrompt None;
    Element StringLiteral (Some (ESC :: lit "[0m"));
    Element Space None ].

(** ** The resolvers *)

Section Resolvers.

Variable P : platform.

Definition basename_r (path : list ascii) (buf : cptr) : M cptr :=
  match basename_of P path with
  | inl b => store buf b;; mret buf
  | inr e => os_fail e NULL
  end.

(** [malloc_or_error ps size]: the pointer returned, and [ps] as the call
    leaves it. *)
Definition malloc_or_error (ps : prompt_string) (size : nat)
    : M (cptr * prompt_string) :=
  ptr ← malloc size;
  if is_null ptr
  then mret (ptr, PS (Static "!MALLOC!") false)
  else mret (ptr, ps).

(** [format_error err_str err needs_free]: the string returned and the flag
    written through [needs_free]. *)
Definition format_error (err_str : cptr) (err : Z) : M (cptr * bool) :=
  if HAVE_STRERRORNAME_NP P then
    let length := (2 + strnlen (strerrorname_np P err) 20)%nat in
    ret ← malloc length;
    if is_null ret then mret (err_str, false)
    else
      strlcpy ret "!" length;;
      strlcat ret (strerrorname_np P err) length;;
      strlcat ret "!" length;;
      mret (ret, true)
  else mret (err_str, false).

(** [ps->str = format_error(token, errno, &ps->needs_free)]. *)
Definition report (token : list ascii) : M prompt_string :=
  e ← get_errno;
  '(s, nf) ← format_error (Static token) e;
  mret (PS s nf).

Definition get_formatted_time (w : world) (ps : prompt_string) (fmt : cptr)
    : M prompt_string :=
  let ps := set_needs_free true ps in
  clock ← time w;
  if clock =? -1 then report "!TIME!"
  else
    '(p, ps) ← malloc_or_error ps MAX_STRFTIME_SIZE;
    let ps := set_str p ps in
    if is_null (str ps) then mret ps
    else
      status ← strftime w (str ps) MAX_STRFTIME_SIZE fmt clock;
      if status =? 0 then
        free (str ps);;
        mret (PS (Static "!STRFTIME!") false)
      else mret ps.

Definition get_hostname (w : world) (ps : prompt_string) (to_dot : bool)
    : M prompt_string :=
  let ps := set_needs_free false ps in
  errno_temp ← get_errno;
  length ← sysconf (host_name_max w);
  if length =? -1 then
    e ← get_errno;
    if e =? errno_temp then mret (set_str (Static "!NOHOSTNAMEMAX!") ps)
    else report "!SYSCONF!"
  else
    let ps := set_needs_free true ps in
    '(p, ps) ← malloc_or_error ps (Z.to_nat length);
    let ps := set_str p ps in
    if is_null (str ps) then mret ps
    else
      r ← gethostname w (str ps) (Z.to_nat length);
      if r =? -1 then
        free (str ps);;
        report "!GETHOSTNAME!"
      else
        (if to_dot
         then h ← load (str ps); store (str ps) (cut_at "." h)
         else mret tt);;
        mret ps.

Definition get_tty_basename (w : world) (ps : prompt_string)
    : M prompt_string :=
  let ps := set_needs_free false ps in
  t ← isatty w;
  if negb t then report "!ISATTY!"
  else
    tty ← ttyname w;
    if is_null tty then report "!TTYNAME!"
    else
      let ps := set_needs_free true ps in
      '(p, ps) ← malloc_or_error ps (PATH_MAX P);
      let ps := set_str p ps in
      if is_null (str ps) then mret ps
      else
        path ← load tty;
        r ← basename_r path (str ps);
        if is_null r then
          free (str ps);;
          report "!BASENAMER!"
        else mret ps.

Definition get_parent_name (w : world) (ps : prompt_string)
    : M prompt_string :=
  let ps := set_needs_free true ps in
  '(p, ps) ← malloc_or_error ps (PROC_PIDPATHINFO_MAXSIZE P);
  let ps := set_str p ps in
  if is_null (str ps) then mret ps
  else if APPLE P then
    ret ← proc_pidpath w (str ps) (PROC_PIDPATHINFO_MAXSIZE P);
    if ret <=? 0 then
      free (str ps);;
      report "!PROCPIDPATH!"
    else mret ps
  else
    free (str ps);;
    mret (PS (Static "!NOPROC!") false).

Definition get_username (w : world) (ps : prompt_string) : M prompt_string :=
  let ps := set_needs_free false ps in
  status ← get_errno;
  bufsz ← sysconf (getpw_r_size_max w);
  if bufsz =? -1 then
    e ← get_errno;
    if status =? e then mret (set_str (Static "!NOGETPWRSIZEMAX!") ps)
    else report "!SYSCONF!"
  else
    '(buf, ps) ← malloc_or_error ps (Z.to_nat bufsz);
    if is_null buf then mret ps
    else
      '(status, result) ← getpwuid_r w buf (Z.to_nat bufsz);
      if negb (status =? 0) then
        free buf;;
        report "!GETPWUIDR!"
      else
        match result with
        | None =>
            free buf;;
            mret (set_str (Static "nobody") ps)
        | Some pass =>
            let ps := set_needs_free true ps in
            dup ← strndup (pw_name pass) (PATH_MAX P + 1);
            let ps := set_str dup ps in
            let ps := if is_null dup
                      then PS (Static "!STRNDUP!") false
                      else ps in
            free buf;;
            mret ps
        end.

(** [get_home_dir ret]: the code returned and the pointer stored in
    [*ret]. *)
Definition get_home_dir (w : world) : M (Z * cptr) :=
  home ← getenv_HOME w;
  if negb (is_null home) then mret (HOME_DIR_NO_ALLOC, home)
  else
    status ← get_errno;
    pwbufsz ← sysconf (getpw_r_size_max w);
    if pwbufsz =? -1 then
      e ← get_errno;
      if status =? e then mret (HOME_DIR_NO_ALLOC, Static "!NOGETPWRSIZEMAX!")
      else
        '(s, err_free) ← format_error (Static "!SYSCONF!") e;
        mret (Z.b2z err_free - 2, s)
    else
      pwbuf ← malloc (Z.to_nat pwbufsz);
      if is_null pwbuf
      then mret (HOME_DIR_FAILED_MESSAGE_NO_ALLOC, Static "!MALLOC!")
      else
        '(status, result) ← getpwuid_r w pwbuf (Z.to_nat pwbufsz);
        if negb (status =? 0) then
          e ← get_errno;
          '(s, err_free) ← format_error (Static "!GETPWUIDR!") e;
          mret (Z.b2z err_free - 2, s)
        else
          match result with
          | None => mret (HOME_DIR_NO_ALLOC, Static "!USERNOTFOUND!")
          | Some pw =>
              home ← strndup (pw_dir pw) (PATH_MAX P + 1);
              if is_null home
              then mret (HOME_DIR_FAILED_MESSAGE_NO_ALLOC, Static "!STRNDUP!")
              else mret (HOME_DIR_ALLOC, home)
          end.

(** Cell accesses of the local array [pwd]; an index outside the array has
    no defined value. *)
Definition rd (cells : list ascii) (i : Z) : option ascii :=
  if i <? 0 then None else cells !! Z.to_nat i.

Definition wr (cells : list ascii) (i : nat) (c : ascii)
    : option (list ascii) :=
  if bool_decide (i < length cells)%nat then Some (<[i := c]> cells) else None.

(** The loop [for (match = pwd + 1; *(match + len); match++)
    *match = *(match + len);] followed by [*match = 0], with [match = pwd + i]
    and [n] the number of cells from [match] to the end of the array.  With
    no cell left ([n = 0]) the store through [match] is outside the array
    whether the loop goes on or stops. *)
Fixpoint shift_left (n : nat) (cells : list ascii) (i : nat) (len : Z)
    : option (list ascii) :=
  match n with
  | O => None
  | S n' =>
      c ← rd cells (Z.of_nat i + len);
      if is_nul c then wr cells i NUL
      else cells' ← wr cells i c; shift_left n' cells' (S i) len
  end.

Definition tilde : ascii := "~"%char.

(** The block guarded by [match == pwd]: [len = strnlen(home, PATH_MAX) - 1],
    [*pwd = '~'], then the loop and the final terminator. *)
Definition collapse_home (pwd h : list ascii) : option (list ascii) :=
  let len := Z.of_nat (strnlen h (PATH_MAX P)) - 1 in
  pwd ← wr pwd 0 tilde;
  shift_left (PATH_MAX P - 1) pwd 1 len.

Definition get_pwd_tilde (w : world) (ps : prompt_string) (base : bool)
    : M prompt_string :=
  got ← getcwd w (replicate (PATH_MAX P) NUL) (PATH_MAX P);
  match got with
  | None => report "!GETCWD!"
  | Some pwd =>
      '(status, home) ← get_home_dir w;
      if status <? 0 then mret (PS home (negb (status + 2 =? 0)))
      else
        h ← load home;
        pwd ← (if bool_decide (strnstr (cstr pwd) h (PATH_MAX P) = Some 0%nat)
               then lift (collapse_home pwd h)
               else mret pwd);
        (if status =? HOME_DIR_ALLOC then free home else mret tt);;
        let len := (strnlen (cstr pwd) (PATH_MAX P) + 1)%nat in
        let ps := set_needs_free true ps in
        '(p, ps) ← malloc_or_error ps len;
        let ps := set_str p ps in
        if is_null (str ps) then mret ps
        else if base then
          r ← basename_r (cstr pwd) (str ps);
          if is_null r then
            free (str ps);;
            report "!BASENAMER!"
          else
            strlcpy (str ps) (cstr pwd) (PATH_MAX P);;
            mret ps
        else
          strlcpy (str ps) (cstr pwd) (PATH_MAX P);;
          mret ps
  end.

End Resolvers.

(** ** Dispatch, release and output *)

Section Engine.

Variable P : platform.

Definition BEL : ascii := ascii_of_nat 7.
Definition LF : ascii := ascii_of_nat 10.

(** The body of the [switch] of [make_exploded_prompt] for [prompt[i]],
    acting on [elements[i]]. *)
Definition resolve (w : world) (e : PromptElement) (ps : prompt_string)
    : M prompt_string :=
  match type e with
  | StringLiteral => mret (PS (arg_ptr e) false)
  | Space => mret (PS (Static " ") false)
  | Bell => mret (PS (Static [BEL]) false)
  | WeekMonthDay => get_formatted_time P w ps (Static "%a %b %d")
  | StrftimeDate => get_formatted_time P w ps (arg_ptr e)
  | HourMinuteSecond24 => get_formatted_time P w ps (Static "%H:%M:%S")
  | HourMinuteSecond12 => get_formatted_time P w ps (Static "%I:%M:%S")
  | TimeAmPm => get_formatted_time P w ps (Static "%I:%M %p")
  | HourMinute24 => get_formatted_time P w ps (Static "%H:%M")
  | HostnameUpToDot => get_hostname P w ps true
  | FullHostname => get_hostname P w ps false
  | TtyBasename => get_tty_basename P w ps
  | ShellName => get_parent_name P w ps
  | Username => get_username P w ps
  | PwdTrunc => get_pwd_tilde P w ps false
  | PwdTruncBasename => get_pwd_tilde P w ps true
  | UserPrompt =>
      id ← geteuid w;
      mret (PS (Static (if id =? 0 then lit "#" else lit "$")) false)
  end.

(** What a cell of the freshly allocated array holds before it is
    assigned. *)
Definition unset : prompt_string := PS NULL false.

Definition sizeof_prompt_string : nat := 16.

(** The loop of [make_exploded_prompt] from index [i] on.  [ws i] is what
    the operating system answers while [prompt[i]] is resolved, its
    allocator included.  Assigning [elements[i]] needs the array. *)
Fixpoint fill (elements : cptr) (i : nat) (ws : nat -> world)
    (rest : list PromptElement) : M (list prompt_string) :=
  match rest with
  | [] => mret []
  | e :: rest' =>
      if is_null elements then undefined
      else
        set_budget (alloc (ws i));;
        ps ← resolve (ws i) e unset;
        pss ← fill elements (S i) ws rest';
        mret (ps :: pss)
  end.

(** [make_exploded_prompt len]: the array pointer, the cells of the array
    and the length stored in [*len]. *)
Definition make_exploded_prompt (prompt : list PromptElement)
    (ws : nat -> world) : M (cptr * list prompt_string * nat) :=
  let prompt_elements := length prompt in
  elements ← malloc (prompt_elements * sizeof_prompt_string);
  cells ← fill elements 0 ws prompt;
  mret (elements, cells, prompt_elements).

(** The loop of [exploded_prompt_free]: [n] iterations from index [i]. *)
Fixpoint free_from (n i : nat) (cells : list prompt_string) : M unit :=
  match n with
  | O => mret tt
  | S n' =>
      ps ← lift (cells !! i);
      (if needs_free ps then free (str ps) else mret tt);;
      free_from n' (S i) cells
  end.

Definition exploded_prompt_free (exploded_prompt : cptr)
    (cells : list prompt_string) (len : nat) : M unit :=
  free_from len 0 cells;;
  free exploded_prompt.

(** [printf("%s", p)] and [printf("%s\n", p)]. *)
Definition printf_s (p : cptr) (newline : bool) : M unit :=
  s ← load p;
  write_stdout (if newline then s ++ [LF] else s).

(** The loop of [main]: [n] iterations from index [i]. *)
Fixpoint print_from (n i : nat) (cells : list prompt_string)
    (exploded_length : nat) : M unit :=
  match n with
  | O => mret tt
  | S n' =>
      ps ← lift (cells !! i);
      printf_s (str ps) (bool_decide (i = exploded_length - 1)%nat);;
      print_from n' (S i) cells exploded_length
  end.

Definition main (prompt : list PromptElement) (ws : nat -> world) : M unit :=
  '(exploded_prompt, cells, exploded_length) ← make_exploded_prompt prompt ws;
  print_from exploded_length 0 cells exploded_length;;
  exploded_prompt_free exploded_prompt cells exploded_length.

End Engine.

(** ** The earlier revision of [main.c] ([src/unnamed/part_000])

    The resolvers return the string and write the flag through
    [needs_free]; allocations are not checked. *)
Module Earlier.

Section Resolvers.

Variable P : platform.

Definition format_error (err_str : cptr) (err : Z) : M (cptr * bool) :=
  if HAVE_STRERRORNAME_NP P then
    let length := (2 + strnlen (strerrorname_np P err) 20)%nat in
    ret ← malloc length;
    strlcpy ret "!" length;;
    strlcat ret (strerrorname_np P err) length;;
    strlcat ret "!" length;;
    mret (ret, true)
  else mret (err_str, false).

Definition get_formatted_time (w : world) (fmt : cptr) : M (cptr * bool) :=
  clock ← time w;
  if clock =? -1 then
    e ← get_errno;
    format_error (Static "!TIME!") e
  else
    ret ← malloc MAX_STRFTIME_SIZE;
    status ← strftime w ret MAX_STRFTIME_SIZE fmt clock;
    if status =? 0 then
      free ret;;
      mret (Static "!STRFTIME!", false)
    else mret (ret, true).

Definition get_tty_basename (w : world) : M (cptr * bool) :=
  t ← isatty w;
  if negb t then
    e ← get_errno;
    format_error (Static "!ISATTY!") e
  else
    tty ← ttyname w;
    if is_null tty then
      e ← get_errno;
      format_error (Static "!TTYNAME!") e
    else
      ret ← malloc (PATH_MAX P);
      path ← load tty;
      r ← basename_r P path ret;
      if is_null r then
        free ret;;
        e ← get_errno;
        format_error (Static "!BASENAMER!") e
      else mret (tty, false).

Definition get_parent_name (w : world) : M (cptr * bool) :=
  path ← malloc (PROC_PIDPATHINFO_MAXSIZE P);
  if APPLE P then
    ret ← proc_pidpath w path (PROC_PIDPATHINFO_MAXSIZE P);
    if ret <=? 0 then
      free path;;
      e ← get_errno;
      format_error (Static "!PROCPIDPATH!") e
    else mret (path, true)
  else
    free path;;
    mret (Static "!NOPROC!", false).

(** [getpwuid_r] stores the strings of the record in [buf]: handed the
    [NULL] of an unchecked [malloc], the call has no defined behaviour. *)
Definition getpwuid_r_into (w : world) (buf : cptr) (bufsz : nat)
    : M (Z * option passwd) :=
  if is_null buf then undefined else getpwuid_r w buf bufsz.

Definition get_username (w : world) : M (cptr * bool) :=
  status ← get_errno;
  bufsz ← sysconf (getpw_r_size_max w);
  if bufsz =? -1 then
    e ← get_errno;
    if status =? e then mret (Static "!NOGETPWRSIZEMAX!", false)
    else format_error (Static "!SYSCONF!") e
  else
    buf ← malloc (Z.to_nat bufsz);
    '(status, result) ← getpwuid_r_into w buf (Z.to_nat bufsz);
    if negb (status =? 0) then
      free buf;;
      e ← get_errno;
      format_error (Static "!GETPWUIDR!") e
    else
      match result with
      | None =>
          free buf;;
          mret (Static "nobody", false)
      | Some pass =>
          username ← strndup (pw_name pass) (PATH_MAX P + 1);
          if is_null username then mret (Static "!STRNDUP!", false)
          else mret (username, true)
      end.

Definition get_home_dir (w : world) : M (Z * cptr) :=
  home ← getenv_HOME w;
  if negb (is_null home) then mret (HOME_DIR_NO_ALLOC, home)
  else
    status ← get_errno;
    pwbufsz ← sysconf (getpw_r_size_max w);
    if pwbufsz =? -1 then
      e ← get_errno;
      if status =? e then mret (HOME_DIR_NO_ALLOC, Static "!NOGETPWRSIZEMAX!")
      else
        '(s, err_free) ← format_error (Static "!SYSCONF!") e;
        mret (Z.b2z err_free - 2, s)
    else
      pwbuf ← malloc (Z.to_nat pwbufsz);
      '(status, result) ← getpwuid_r_into w pwbuf (Z.to_nat pwbufsz);
      if negb (status =? 0) then
        e ← get_errno;
        '(s, err_free) ← format_error (Static "!GETPWUIDR!") e;
        mret (Z.b2z err_free - 2, s)
      else
        match result with
        | None => mret (HOME_DIR_NO_ALLOC, Static "!USERNOTFOUND!")
        | Some pw =>
            home ← strndup (pw_dir pw) (PATH_MAX P + 1);
            if is_null home
            then mret (HOME_DIR_FAILED_MESSAGE_NO_ALLOC, Static "!STRNDUP!")
            else mret (HOME_DIR_ALLOC, home)
        end.

Definition get_pwd_tilde (w : world) (base : bool) : M (cptr * bool) :=
  got ← getcwd w (replicate (PATH_MAX P) NUL) (PATH_MAX P);
  match got with
  | None =>
      e ← get_errno;
      format_error (Static "!GETCWD!") e
  | Some pwd =>
      '(status, home) ← get_home_dir w;
      if status <? 0 then mret (home, negb (status + 2 =? 0))
      else
        h ← load home;
        pwd ← (if bool_decide (strnstr (cstr pwd) h (PATH_MAX P) = Some 0%nat)
               then lift (collapse_home P pwd h)
               else mret pwd);
        (if status =? HOME_DIR_ALLOC then free home else mret tt);;
        let len := strnlen (cstr pwd) (PATH_MAX P) in
        pwd_heap ← malloc len;
        if base then
          r ← basename_r P (cstr pwd) pwd_heap;
          if is_null r then
            free pwd_heap;;
            e ← get_errno;
            format_error (Static "!BASENAMER!") e
          else
            strlcpy pwd_heap (cstr pwd) (PATH_MAX P);;
            mret (pwd_heap, true)
        else
          strlcpy pwd_heap (cstr pwd) (PATH_MAX P);;
          mret (pwd_heap, true)
  end.

End Resolvers.

End Earlier.

(** The state a process starts in. *)
Definition boot : mem := Mem ∅ 0 [] 0 0 [] [].


(** ** Concrete platforms and worlds *)

(** The last component of a path, as [basename_r] computes it for the paths
    used below. *)
Fixpoint last_component (acc path : list ascii) : list ascii :=
  match path with
  | [] => acc
  | c :: path' =>
      if bool_decide (c = "/"%char) then last_component [] path'
      else last_component (acc ++ [c]) path'
  end.

Definition errno_name (e : Z) : list ascii :=
  if e =? 2 then lit "ENOENT"
  else if e =? 12 then lit "ENOMEM"
  else if e =? 22 then lit "EINVAL"
  else if e =? 25 then lit "ENOTTY"
  else if e =? 34 then lit "ERANGE"
  else if e =? 75 then lit "EOVERFLOW"
  else lit "0".

(** A platform without [strerrorname_np] (macOS) and one with it. *)
Definition macos : platform :=
  Platform 1024 4096 false errno_name true
           (fun p => inl (last_component [] p)).

Definition glibc : platform :=
  Platform 4096 4096 true errno_name false
           (fun p => inl (last_component [] p)).

(** A world in which every query succeeds. *)
Definition quiet : world :=
  World [] (inl 1700000000) (fun _ _ => lit "12:00") (Limit 255)
        (inl (lit "box.example.org")) (inl tt) (inl (lit "/dev/ttys003"))
        (inl (lit "/bin/zsh")) (Limit 4096)
        (PwFound (Passwd (lit "alice") (lit "/home/alice")))
        (Some (lit "/home/alice")) (inl (lit "/home/alice/proj")) 501.

Definition with_clock (c : Z + Z) (w : world) : world :=
  World (alloc w) c (expand w) (host_name_max w) (hostname w) (stdout_tty w)
        (tty_name w) (parent_path w) (getpw_r_size_max w) (pw_entry w)
        (env_HOME w) (cwd w) (euid w).

Definition with_limits (h g : sysconf_answer) (w : world) : world :=
  World (alloc w) (clock w) (expand w) h (hostname w) (stdout_tty w)
        (tty_name w) (parent_path w) g (pw_entry w)
        (env_HOME w) (cwd w) (euid w).

Definition with_home (h : option (list ascii)) (d : list ascii) (w : world)
    : world :=
  World (alloc w) (clock w) (expand w) (host_name_max w) (hostname w)
        (stdout_tty w) (tty_name w) (parent_path w) (getpw_r_size_max w)
        (pw_entry w) h (inl d) (euid w).

(** The text of a fragment, when its pointer designates one. *)
Definition text_of (st : mem) (p : cptr) : option (list ascii) :=
  fst <$> load p st.

(** ** Heap invariants *)

Definition live (st : mem) (b : nat) : Prop := is_Some (blocks st !! b).

(** Block identifiers are handed out in increasing order. *)
Definition wf (st : mem) : Prop := forall b, live st b -> (b < next st)%nat.

(** [grows_from n st st']: [st'] is reached from [st] by allocating, and by
    writing to or releasing only blocks numbered [n] or more. *)
Record grows_from (n : nat) (st st' : mem) : Prop := Grows {
  grows_next : (next st <= next st')%nat;
  grows_old : forall b, (b < n)%nat -> blocks st' !! b = blocks st !! b;
  grows_wf : wf st -> wf st';
  grows_freed :
    exists l, freed st' = freed st ++ l /\ Forall (fun b => n <= b)%nat l;
  grows_denied : (denied st <= denied st')%nat;
  grows_out : out st' = out st
}.

(** The ownership flag of a fragment resolved between [st] and [st']: an
    owned fragment is a block numbered [n] or more that is allocated in
    [st'], and no allocation request failed on the way; a borrowed one is
    no heap block at all. *)
Definition owned_from (n : nat) (st st' : mem) (ps : prompt_string) : Prop :=
  if needs_free ps
  then exists b, str ps = Heap b /\ (n <= b)%nat /\ live st' b /\
                 denied st' = denied st
  else str ps = NULL \/ exists s, str ps = Static s.

(** The blocks the release loop is to free, in order. *)
Definition owned_block (ps : prompt_string) : option nat :=
  if needs_free ps
  then match str ps with Heap b => Some b | _ => None end
  else None.

Definition owned_blocks (cells : list prompt_string) : list nat :=
  omap owned_block cells.

(** States built by the allocator. *)
Definition alloc_st (bl : block) (st : mem) : mem :=
  Mem (<[next st := bl]> (blocks st)) (S (next st)) (freed st) (denied st)
      (errno st) (tail (budget st)) (out st).

Definition deny_st (st : mem) : mem :=
  Mem (blocks st) (next st) (freed st) (S (denied st)) ENOMEM
      (tail (budget st)) (out st).

(** The text [format_error] builds for an error code. *)
Definition error_name (P : platform) (err : Z) : list ascii :=
  lit "!" ++ take 20 (strerrorname_np P err).

(** What resolving one element does to the state, and the flag it sets. *)
Definition resolved (st : mem) (ps' : prompt_string) (st' : mem) : Prop :=
  grows_from (next st) st st' /\ owned_from (next st) st st' ps'.

(** What [get_home_dir] hands to its caller. *)
Definition home_ok (st st1 : mem) (status : Z) (home : cptr) : Prop :=
  (status = HOME_DIR_FAILED_MESSAGE_ALLOC /\
     exists b, home = Heap b /\ (next st <= b)%nat /\ live st1 b /\
               denied st1 = denied st) \/
  (status = HOME_DIR_FAILED_MESSAGE_NO_ALLOC /\ exists s, home = Static s) \/
  (status = HOME_DIR_NO_ALLOC /\ (exists s, home = Static s) /\
     denied st1 = denied st) \/
  (status = HOME_DIR_ALLOC /\
     exists b, home = Heap b /\ (next st <= b)%nat /\ live st1 b /\
               denied st1 = denied st).

(** A fragment as the release loop sees it in state [st]. *)
Definition frag_ok (n : nat) (st : mem) (ps : prompt_string) : Prop :=
  if needs_free ps
  then exists b, str ps = Heap b /\ (n <= b)%nat /\ live st b
  else str ps = NULL \/ exists s, str ps = Static s.

(** The array block, when there is one. *)
Definition container (elements : cptr) : list nat :=
  match elements with
  | Heap c => [c]
  | _ => []
  end.

(** The state after writing [s] to standard output. *)
Definition emit (s : list ascii) (st : mem) : mem :=
  Mem (blocks st) (next st) (freed st) (denied st) (errno st) (budget st)
      (out st ++ s).

(** The cwd kinds, whose resolver looks the home directory up. *)
Definition is_cwd_kind (t : PromptElementType) : bool :=
  match t with
  | PwdTrunc | PwdTruncBasename => true
  | _ => false
  end.

(** What a resolver may leave allocated: its own fragment. *)
Definition only_fragment (st : mem) (ps : prompt_string) (st' : mem) : Prop :=
  forall b, live st' b ->
    live st b \/ (needs_free ps = true /\ str ps = Heap b).

(** The state after a failed call has left [e] in [errno]. *)
Definition errno_st (e : Z) (st : mem) : mem :=
  Mem (blocks st) (next st) (freed st) (denied st) e (budget st) (out st).

(** The state after the block [next st] has been allocated, written and
    released again. *)
Definition released_st (bl : block) (st : mem) : mem :=
  Mem (delete (next st) (<[next st := bl]> (blocks st))) (S (next st))
      (freed st ++ [next st]) (denied st) (errno st) (tail (budget st))
      (out st).

(** ** Inputs used in the examples *)

Definition default_run : option (cptr * list prompt_string * nat * mem) :=
  make_exploded_prompt macos prompt (fun _ => quiet) boot.

(** A process whose next allocation requests have the given outcomes. *)
Definition tight (bs : list bool) : mem := Mem ∅ 0 [] 0 0 bs [].

Definition starved : mem := tight [false].

Definition jammed_clock : world := with_clock (inr 75) quiet.

(** A world whose [strftime] expansion never fits 50 bytes. *)
Definition verbose_clock : world :=
  World [] (inl 1700000000)
        (fun _ f => f ++ f ++ f ++ f ++ f ++ f ++ f ++ f ++ f ++ f)
        (Limit 255) (inl (lit "box")) (inl tt) (inl (lit "/dev/ttys003"))
        (inl (lit "/bin/zsh")) (Limit 4096) PwNotFound None
        (inl (lit "/")) 0.

(** [quiet] without [HOME] in the environment. *)
Definition homeless : world :=
  World [] (inl 1700000000) (fun _ _ => lit "12:00") (Limit 255)
        (inl (lit "box.example.org")) (inl tt) (inl (lit "/dev/ttys003"))
        (inl (lit "/bin/zsh")) (Limit 4096)
        (PwFound (Passwd (lit "alice") (lit "/home/alice")))
        None (inl (lit "/home/alice/proj")) 501.

Definition EINVAL : Z := 22.

Definition two_limits : list PromptElement :=
  [Element FullHostname None; Element Username None].

(** [sysconf] knows the host name limit but fails on the passwd buffer
    size; and [sysconf] fails on both. *)
Definition no_pw_limit : world :=
  with_limits (Limit 255) (SysconfError EINVAL) quiet.

Definition no_limits : world :=
  with_limits (SysconfError EINVAL) (SysconfError EINVAL) quiet.

Definition ws_host_ok (i : nat) : world := no_pw_limit.

Definition ws_host_fails (i : nat) : world :=
  match i with
  | O => no_limits
  | _ => no_pw_limit
  end.

(** The text of the [i]-th fragment of a render started in [boot]. *)
Definition fragment_text (P : platform) (prompt : list PromptElement)
    (ws : nat -> world) (i : nat) : option (list ascii) :=
  '(_, cells, _, st) ← make_exploded_prompt P prompt ws boot;
  ps ← cells !! i;
  text_of st (str ps).

(** The pattern [make_exploded_prompt] passes to [get_formatted_time] for
    the kinds it formats. *)
Definition time_pattern (e : PromptElement) : option (list ascii) :=
  match type e with
  | WeekMonthDay => Some (lit "%a %b %d")
  | StrftimeDate => arg e
  | HourMinuteSecond24 => Some (lit "%H:%M:%S")
  | HourMinuteSecond12 => Some (lit "%I:%M:%S")
  | TimeAmPm => Some (lit "%I:%M %p")
  | HourMinute24 => Some (lit "%H:%M")
  | _ => None
  end.

(** [homeless] on a system with no definite size for the passwd buffer. *)
Definition unsized : world := with_limits (Limit 255) Indeterminate homeless.

(** * Properties *)

Section Specs.

Variable P : platform.

Lemma malloc_eq size st :
  malloc size st =
  Some (if grants st then (Heap (next st), alloc_st (Block size []) st)
        else (NULL, deny_st st)).
Proof. unfold malloc. by destruct (grants st). Qed.

Lemma store_fresh bl s st :
  (length s < cap bl)%nat ->
  store (Heap (next st)) s (alloc_st bl st) =
  Some (tt, alloc_st (Block (cap bl) s) st).
Proof.
  intros Hlen. unfold store, alloc_st. cbn. rewrite lookup_insert_eq.
  rewrite bool_decide_eq_true_2 by done. by rewrite insert_insert_eq.
Qed.

Lemma load_fresh bl st :
  load (Heap (next st)) (alloc_st bl st) = Some (content bl, alloc_st bl st).
Proof. unfold load, alloc_st. cbn. by rewrite lookup_insert_eq. Qed.

Lemma take_strnlen (s : list ascii) n : take (strnlen s n) s = take n s.
Proof.
  unfold strnlen. destruct (decide (length s <= n)%nat).
  - rewrite Nat.min_l by done. by rewrite !take_ge by lia.
  - by rewrite Nat.min_r by lia.
Qed.

Lemma length_take_strnlen (s : list ascii) n : length (take n s) = strnlen s n.
Proof. unfold strnlen. rewrite length_take. lia. Qed.

(** [format_error] always returns.  With [strerrorname_np] and a granted
    buffer of [2 + strnlen name 20] bytes, the two [strlcat] calls leave
    room for the name only: the closing [!] is not appended. *)
Lemma format_error_eq err_str err st :
  format_error P err_str err st =
  Some (if HAVE_STRERRORNAME_NP P then
          if grants st
          then (Heap (next st), true,
                alloc_st (Block (2 + strnlen (strerrorname_np P err) 20)
                                (error_name P err)) st)
          else (err_str, false, deny_st st)
        else (err_str, false, st)).
Proof.
  unfold format_error, error_name.
  destruct (HAVE_STRERRORNAME_NP P); [|done].
  unfold mbind, M_bind. rewrite malloc_eq.
  destruct (grants st); [|done]. cbn [is_null].
  generalize (strerrorname_np P err) as name; intros name.
  unfold strlcpy. rewrite bool_decide_eq_false_2 by lia.
  rewrite (take_ge (lit "!")) by (cbn; lia).
  unfold strlcat, mbind, M_bind.
  rewrite store_fresh by (cbn; lia).
  rewrite load_fresh. cbn [content cap].
  rewrite bool_decide_eq_false_2 by (cbn; lia).
  replace (2 + strnlen name 20 - length (lit "!") - 1)%nat
    with (strnlen name 20) by (cbn; lia).
  rewrite take_strnlen.
  assert (Hl : length (lit "!" ++ take 20 name) = S (strnlen name 20)).
  { rewrite length_app, length_take_strnlen. reflexivity. }
  rewrite store_fresh by (cbn [cap]; rewrite Hl; lia).
  rewrite load_fresh. cbn [content cap].
  rewrite bool_decide_eq_false_2 by (rewrite Hl; lia).
  rewrite Hl.
  replace (2 + strnlen name 20 - S (strnlen name 20) - 1)%nat with 0%nat by lia.
  rewrite take_0, app_nil_r.
  rewrite store_fresh by (cbn [cap]; rewrite Hl; lia).
  reflexivity.
Qed.

Lemma report_eq token st :
  report P token st =
  Some (if HAVE_STRERRORNAME_NP P then
          if grants st
          then (PS (Heap (next st)) true,
                alloc_st (Block (2 + strnlen (strerrorname_np P (errno st)) 20)
                                (error_name P (errno st))) st)
          else (PS (Static token) false, deny_st st)
        else (PS (Static token) false, st)).
Proof.
  unfold report, get_errno, mbind, M_bind. rewrite format_error_eq.
  by destruct (HAVE_STRERRORNAME_NP P), (grants st).
Qed.

Lemma malloc_or_error_eq ps size st :
  malloc_or_error ps size st =
  Some (if grants st
        then (Heap (next st), ps, alloc_st (Block size []) st)
        else (NULL, PS (Static "!MALLOC!") false, deny_st st)).
Proof.
  unfold malloc_or_error, mbind, M_bind. rewrite malloc_eq.
  by destruct (grants st).
Qed.

Lemma strndup_eq (s : list ascii) n st :
  strndup s n st =
  Some (if grants st
        then (Heap (next st), alloc_st (Block (S (strnlen s n)) (take n s)) st)
        else (NULL, deny_st st)).
Proof.
  unfold strndup, mbind, M_bind. rewrite malloc_eq.
  destruct (grants st); [|done]. cbn [is_null].
  rewrite store_fresh by (cbn [cap]; rewrite length_take_strnlen; lia).
  reflexivity.
Qed.

End Specs.

(** ** Symbolic execution of the resolvers *)

(** A resolver is a straight-line program with branches: from a hypothesis
    [H : resolver ... st = Some r], [exec H] runs it symbolically, using the
    equations above for the helpers and splitting on every answer of the
    operating system and the allocator; each branch ends with the state
    written out over [blocks st].  The [solve_] tactics then read the heap
    invariants off that state. *)

(** Case analysis on the innermost scrutinee that blocks [H]. *)
Ltac case_stuck H :=
  match type of H with
  | context [match ?x with _ => _ end] =>
      lazymatch x with
      | context [match _ with _ => _ end] => fail
      | context [mbind] => fail
      | _ =>
          let T := type of x in
          lazymatch T with
          | nat => fail
          | list _ => fail
          | _ => destruct x eqn:?
          end
      end
  end.

Ltac exec H :=
  repeat first
    [ discriminate H
    | progress (unfold mbind, M_bind, mret, M_ret in H)
    | rewrite malloc_or_error_eq in H
    | rewrite report_eq in H
    | rewrite strndup_eq in H
    | rewrite format_error_eq in H
    | rewrite malloc_eq in H
    | progress (cbn in H)
    | progress (rewrite ?lookup_insert_eq, ?lookup_delete_eq in H)
    | rewrite lookup_insert_ne in H by lia
    | rewrite lookup_delete_ne in H by lia
    | case_stuck H ].

Ltac solve_old :=
  intros ? ?; cbn;
  repeat first [ rewrite lookup_insert_ne by lia | rewrite lookup_delete_ne by lia ];
  reflexivity.

Ltac solve_wf :=
  let Hwf := fresh "Hwf" in let b := fresh "b" in
  let bl := fresh "bl" in let Hbl := fresh "Hbl" in
  intros Hwf b [bl Hbl]; cbn in *;
  repeat match type of Hbl with
         | delete _ _ !! _ = Some _ => apply lookup_delete_Some in Hbl as [? Hbl]
         | <[_:=_]> _ !! _ = Some _ =>
             apply lookup_insert_Some in Hbl as [[? ?]|[? Hbl]]; [subst; lia|]
         end;
  pose proof (Hwf b (mk_is_Some _ _ Hbl)); lia.

Ltac solve_freed :=
  cbn; rewrite <- ?app_assoc;
  first [ exists []; split; [by rewrite app_nil_r | constructor]
        | eexists; split; [reflexivity | repeat constructor; lia] ].

Ltac solve_grows :=
  constructor; [ cbn; lia | solve_old | solve_wf | solve_freed | cbn; lia | reflexivity ].

Ltac solve_live :=
  unfold live; cbn;
  repeat first [ rewrite lookup_insert_eq | rewrite lookup_insert_ne by lia
               | rewrite lookup_delete_ne by lia ];
  eauto.

Ltac solve_owned :=
  unfold owned_from; cbn;
  first [ left; reflexivity
        | right; eexists; reflexivity
        | eexists; split; [reflexivity | split; [cbn; lia | split; [solve_live | cbn; lia]]] ].

(** A finished branch: [H : Some (ps, st_final) = Some (ps', st')]. *)
Ltac leaf H := simplify_eq H; intros; subst; split; [solve_grows | solve_owned].

Section Frames.

Variable P : platform.

Lemma grows_from_refl n st : grows_from n st st.
Proof.
  constructor; try done. exists []. split; [by rewrite app_nil_r | constructor].
Qed.

Lemma grows_from_trans n st1 st2 st3 :
  grows_from n st1 st2 -> grows_from n st2 st3 -> grows_from n st1 st3.
Proof.
  intros [N1 O1 W1 (l1 & F1 & A1) D1 U1] [N2 O2 W2 (l2 & F2 & A2) D2 U2].
  constructor; [lia | | tauto | | lia | congruence].
  - intros b Hb. rewrite O2, O1 by done. reflexivity.
  - exists (l1 ++ l2). split.
    + rewrite F2, F1. by rewrite app_assoc.
    + by apply Forall_app.
Qed.

Lemma grows_from_weaken n m st st' :
  (m <= n)%nat -> grows_from n st st' -> grows_from m st st'.
Proof.
  intros Hmn [N O W (l & F & A) D U].
  constructor; try done.
  - intros b Hb. apply O. lia.
  - exists l. split; [done|]. eapply Forall_impl; [exact A|]. cbn. lia.
Qed.

#[local] Arguments collapse_home : simpl never.
#[local] Arguments strnstr : simpl never.
#[local] Arguments cstr : simpl never.
#[local] Arguments strnlen : simpl never.
#[local] Arguments take : simpl never.
#[local] Arguments drop : simpl never.
#[local] Arguments replicate : simpl never.
#[local] Arguments Nat.sub : simpl never.
#[local] Arguments Nat.add : simpl never.
#[local] Arguments lit : simpl never.
#[local] Arguments get_home_dir : simpl never.
#[local] Arguments cut_at : simpl never.

Lemma get_formatted_time_spec w ps fmt st ps' st' :
  get_formatted_time P w ps fmt st = Some (ps', st') -> resolved st ps' st'.
Proof.
  intros H.
  unfold get_formatted_time, time, strftime, os_fail, set_errno, free, load, store in H.
  destruct (HAVE_STRERRORNAME_NP P) eqn:HAVE.
  all: exec H.
  all: leaf H.
Qed.

Lemma get_hostname_spec w ps to_dot st ps' st' :
  get_hostname P w ps to_dot st = Some (ps', st') -> resolved st ps' st'.
Proof.
  intros H.
  unfold get_hostname, sysconf, gethostname, get_errno, os_fail, set_errno, free, load, store in H.
  destruct (HAVE_STRERRORNAME_NP P) eqn:HAVE.
  all: exec H.
  all: leaf H.
Qed.

Lemma get_tty_basename_spec w ps st ps' st' :
  get_tty_basename P w ps st = Some (ps', st') -> resolved st ps' st'.
Proof.
  intros H.
  unfold get_tty_basename, isatty, ttyname, basename_r, get_errno, os_fail, set_errno, free, load, store in H.
  destruct (HAVE_STRERRORNAME_NP P) eqn:HAVE.
  all: exec H.
  all: leaf H.
Qed.

Lemma get_parent_name_spec w ps st ps' st' :
  get_parent_name P w ps st = Some (ps', st') -> resolved st ps' st'.
Proof.
  intros H.
  unfold get_parent_name, proc_pidpath, get_errno, os_fail, set_errno, free, load, store in H.
  destruct (HAVE_STRERRORNAME_NP P) eqn:HAVE.
  all: exec H.
  all: leaf H.
Qed.

Lemma get_username_spec w ps st ps' st' :
  get_username P w ps st = Some (ps', st') -> resolved st ps' st'.
Proof.
  intros H.
  unfold get_username, sysconf, getpwuid_r, get_errno, os_fail, set_errno, free in H.
  destruct (HAVE_STRERRORNAME_NP P) eqn:HAVE.
  all: exec H.
  all: leaf H.
Qed.


Lemma get_home_dir_spec w st status home st1 :
  get_home_dir P w st = Some (status, home, st1) ->
  grows_from (next st) st st1 /\ home_ok st st1 status home.
Proof.
  intros H.
  unfold get_home_dir, getenv_HOME, sysconf, getpwuid_r, get_errno, os_fail,
    set_errno in H.
  destruct (HAVE_STRERRORNAME_NP P) eqn:HAVE.
  all: exec H.
  all: simplify_eq H; intros; subst; split; [solve_grows|].
  all: unfold home_ok, HOME_DIR_FAILED_MESSAGE_ALLOC,
         HOME_DIR_FAILED_MESSAGE_NO_ALLOC, HOME_DIR_NO_ALLOC, HOME_DIR_ALLOC.
  all: first
    [ left; split; [reflexivity|]; eexists; split; [reflexivity|];
      split; [cbn; lia|]; split; [solve_live | cbn; lia]
    | right; left; split; [reflexivity|]; eexists; reflexivity
    | right; right; left; split; [reflexivity|]; split; [eexists; reflexivity | cbn; lia]
    | right; right; right; split; [reflexivity|]; eexists; split; [reflexivity|];
      split; [cbn; lia|]; split; [solve_live | cbn; lia] ].
Qed.

Lemma get_pwd_tilde_spec w ps base st ps' st' :
  get_pwd_tilde P w ps base st = Some (ps', st') -> resolved st ps' st'.
Proof.
  intros H. unfold get_pwd_tilde in H.
  unfold mbind at 1, M_bind at 1 in H.
  destruct (getcwd w _ _ st) as [[got st0]|] eqn:Ecwd; [|discriminate].
  assert (Hcwd : grows_from (next st) st st0 /\ next st0 = next st /\
                 blocks st0 = blocks st /\ denied st0 = denied st /\
                 freed st0 = freed st).
  { unfold getcwd, os_fail, set_errno in Ecwd. exec Ecwd.
    all: simplify_eq Ecwd; intros; subst; (split; [solve_grows | done]). }
  destruct Hcwd as (G0 & N0 & B0 & D0 & F0).
  destruct got as [pwd|].
  2:{ destruct (HAVE_STRERRORNAME_NP P) eqn:HAVE.
      all: exec H.
      all: simplify_eq H; intros; subst.
      all: split; [eapply grows_from_trans; [exact G0|]; rewrite <- N0; solve_grows|].
      all: unfold owned_from; cbn; rewrite <- ?N0, <- ?D0;
           first [ right; eexists; reflexivity
                 | eexists; split; [reflexivity | split; [cbn; lia | split; [solve_live | cbn; lia]]] ]. }
  unfold mbind at 1, M_bind at 1 in H.
  destruct (get_home_dir P w st0) as [[[status home] st1]|] eqn:Ehome;
    [|discriminate].
  apply get_home_dir_spec in Ehome as [G1 Hhome].
  pose proof (grows_next _ _ _ G1) as N1. rewrite N0 in G1, N1.
  assert (G01 : grows_from (next st) st st1)
    by (eapply grows_from_trans; eauto).
  unfold home_ok, HOME_DIR_FAILED_MESSAGE_ALLOC,
    HOME_DIR_FAILED_MESSAGE_NO_ALLOC, HOME_DIR_NO_ALLOC, HOME_DIR_ALLOC in Hhome.
  rewrite ?N0, ?D0 in Hhome.
  unfold basename_r, get_errno, os_fail, set_errno, free, strlcpy, store, load, lift in H.
  destruct Hhome as [(-> & b & -> & Hb & Lb & Db) | [(-> & s & ->)
    | [(-> & (s & ->) & Db) | (-> & b & -> & Hb & [blk Lb] & Db)]]].
  - exec H. simplify_eq H; intros; subst. split; [done|].
    unfold owned_from; cbn. exists b. repeat split; [lia | done | lia].
  - exec H. simplify_eq H; intros; subst. split; [done|].
    unfold owned_from; cbn. right. eauto.
  - destruct (HAVE_STRERRORNAME_NP P) eqn:HAVE.
    all: exec H.
    all: simplify_eq H; intros; subst.
    all: split; [eapply grows_from_trans; [exact G01|]; solve_grows|].
    all: unfold owned_from; cbn;
           first [ left; reflexivity | right; eexists; reflexivity
                 | eexists; split; [reflexivity | split; [cbn; lia | split; [solve_live | cbn; lia]]] ].
  - destruct (HAVE_STRERRORNAME_NP P) eqn:HAVE.
    all: rewrite ?Lb in H.
    all: exec H.
    all: simplify_eq H; intros; subst.
    all: split; [eapply grows_from_trans; [exact G01|]; solve_grows|].
    all: unfold owned_from; cbn;
           first [ left; reflexivity | right; eexists; reflexivity
                 | eexists; split; [reflexivity | split; [cbn; lia | split; [solve_live | cbn; lia]]] ].
Qed.

End Frames.

(** ** The loops *)

Section Loops.

Variable P : platform.

Lemma resolve_spec w e ps st ps' st' :
  resolve P w e ps st = Some (ps', st') -> resolved st ps' st'.
Proof.
  unfold resolve. destruct (type e);
    eauto using get_formatted_time_spec, get_hostname_spec,
      get_tty_basename_spec, get_parent_name_spec, get_username_spec,
      get_pwd_tilde_spec.
  all: intros H; unfold geteuid, arg_ptr in H; cbn in H;
    unfold mret, M_ret in H; simplify_eq H; intros; subst;
    (split; [apply grows_from_refl|]); unfold owned_from; cbn.
  - destruct (arg e); eauto.
  - eauto.
  - eauto.
  - eauto.
Qed.

Lemma owned_block_bound n st ps b :
  frag_ok n st ps -> owned_block ps = Some b -> (n <= b)%nat /\ live st b.
Proof.
  unfold frag_ok, owned_block. destruct (needs_free ps); [|done].
  intros (b' & -> & ? & ?) [= <-]. done.
Qed.

Lemma owned_blocks_bound n st cells b :
  Forall (frag_ok n st) cells -> b ∈ owned_blocks cells ->
  (n <= b)%nat /\ live st b.
Proof.
  unfold owned_blocks. intros Hall Hin.
  apply list_elem_of_omap in Hin as (ps & Hps & Hb).
  rewrite Forall_forall in Hall. eauto using owned_block_bound.
Qed.

Lemma frag_ok_grows n m st st' ps :
  wf st -> grows_from (next st) st st' -> (m <= n)%nat ->
  frag_ok n st ps -> frag_ok m st' ps.
Proof.
  intros Hwf G Hmn. unfold frag_ok. destruct (needs_free ps); [|done].
  intros (b & Hs & Hb & Hl). exists b. split; [done|]. split; [lia|].
  unfold live. rewrite (grows_old _ _ _ G); [done|]. by apply Hwf.
Qed.

Lemma fill_spec elements ws rest : forall i st cells st',
  wf st ->
  fill P elements i ws rest st = Some (cells, st') ->
  grows_from (next st) st st' /\ length cells = length rest /\
  Forall (frag_ok (next st) st') cells /\ NoDup (owned_blocks cells).
Proof.
  induction rest as [|e rest IH]; intros i st cells st' Hwf H.
  - cbn in H. unfold mret, M_ret in H. injection H as <- <-.
    split; [apply grows_from_refl|]. split; [done|]. split; constructor.
  - cbn [fill] in H. destruct (is_null elements); [discriminate|].
    unfold mbind, M_bind, set_budget in H.
    set (st0 := Mem _ _ _ _ _ _ _) in H.
    destruct (resolve P (ws i) e unset st0) as [[ps st1]|] eqn:E1; [|discriminate].
    destruct (fill P elements (S i) ws rest st1) as [[pss st2]|] eqn:E2; [|discriminate].
    unfold mret, M_ret in H. injection H as <- <-.
    apply resolve_spec in E1 as [G1 O1].
    assert (G0 : grows_from (next st) st st0) by (subst st0; solve_grows).
    assert (Hwf0 : wf st0) by (apply (grows_wf _ _ _ G0 Hwf)).
    assert (Hwf1 : wf st1) by (apply (grows_wf _ _ _ G1 Hwf0)).
    apply IH in E2 as (G2 & Hlen & Hall & Hnd); [|done].
    pose proof (grows_next _ _ _ G1) as N1.
    change (next st0) with (next st) in *. clearbody st0.
    assert (Hps : frag_ok (next st) st1 ps).
    { unfold owned_from in O1. unfold frag_ok.
      destruct (needs_free ps); [|done]. destruct O1 as (b & ? & ? & ? & _). eauto. }
    split; [|split; [|split]].
    + eapply grows_from_trans; [exact G0|].
      eapply grows_from_trans; [exact G1|].
      eapply grows_from_weaken; [|exact G2]. done.
    + cbn. by rewrite Hlen.
    + constructor.
      * apply (frag_ok_grows (next st) (next st) st1 st2); [done | done | lia | done].
      * eapply Forall_impl; [exact Hall|]. intros ps'. unfold frag_ok.
        destruct (needs_free ps'); [|done]. intros (b & ? & ? & ?).
        exists b. repeat split; [done | lia | done].
    + unfold owned_blocks. cbn [omap list_omap].
      destruct (owned_block ps) as [b|] eqn:Eb; [|done].
      constructor; [|done]. intros Hin.
      destruct (owned_block_bound _ _ _ _ Hps Eb) as [_ Hl].
      apply Hwf1 in Hl.
      destruct (owned_blocks_bound _ _ _ _ Hall Hin). lia.
Qed.


Lemma drop_cons_inv {A} (l : list A) i x rest :
  drop i l = x :: rest -> l !! i = Some x /\ drop (S i) l = rest.
Proof.
  intros H. split.
  - pose proof (lookup_drop l i 0) as E. rewrite H in E. cbn in E.
    by rewrite Nat.add_0_r in E.
  - pose proof (drop_drop l 1 i) as E. rewrite H in E. cbn in E.
    by rewrite Nat.add_1_r in E.
Qed.

Lemma free_from_spec n cells : forall rest i st,
  drop i cells = rest ->
  Forall (frag_ok n st) rest ->
  NoDup (owned_blocks rest) ->
  exists st', free_from (length rest) i cells st = Some (tt, st') /\
    freed st' = freed st ++ owned_blocks rest /\
    (forall b, b ∉ owned_blocks rest -> blocks st' !! b = blocks st !! b) /\
    next st' = next st /\ out st' = out st.
Proof.
  induction rest as [|ps rest IH]; intros i st Hdrop Hall Hnd.
  - exists st. cbn. rewrite app_nil_r. done.
  - apply drop_cons_inv in Hdrop as [Hi Hdrop].
    apply Forall_cons in Hall as [Hps Hall].
    cbn [length free_from]. unfold mbind, M_bind, lift. rewrite Hi.
    unfold owned_blocks in *. cbn [omap list_omap] in *.
    unfold frag_ok in Hps.
    destruct (needs_free ps) eqn:Enf.
    + destruct Hps as (b & Hs & _ & [bl Hl]).
      assert (Eo : owned_block ps = Some b)
        by (unfold owned_block; by rewrite Enf, Hs).
      rewrite Eo in *. rewrite Hs.
      apply NoDup_cons in Hnd as [Hnotin Hnd].
      unfold free. rewrite Hl.
      set (st0 := Mem _ _ _ _ _ _ _).
      destruct (IH (S i) st0 Hdrop) as (st' & E & F & B & N & O); [|done|].
      { rewrite Forall_forall in Hall |- *. intros ps' Hin.
        specialize (Hall ps' Hin). unfold frag_ok in *.
        destruct (needs_free ps') eqn:Enf'; [|done].
        destruct Hall as (b' & Hs' & Hb' & Hl'). exists b'.
        split; [done|]. split; [done|]. unfold live. cbn.
        rewrite lookup_delete_ne; [done|]. intros ->. apply Hnotin.
        apply list_elem_of_omap. exists ps'. split; [done|].
        unfold owned_block. by rewrite Enf', Hs'. }
      exists st'. split; [done|]. split; [|split; [|done]].
      * rewrite F. cbn. by rewrite <- app_assoc.
      * intros b' Hb'. rewrite not_elem_of_cons in Hb'. destruct Hb' as [? ?].
        rewrite B by done. cbn. by rewrite lookup_delete_ne.
    + assert (Eo : owned_block ps = None)
        by (unfold owned_block; by rewrite Enf).
      rewrite Eo in *. unfold mret, M_ret.
      destruct (IH (S i) st Hdrop Hall Hnd) as (st' & E & F & B & N & O).
      exists st'. done.
Qed.

Lemma text_of_blocks st st' p :
  blocks st = blocks st' -> text_of st p = text_of st' p.
Proof.
  intros E. unfold text_of, load. destruct p; [done..|]. rewrite E.
  by destruct (blocks st' !! b).
Qed.

Lemma load_text p st t : text_of st p = Some t -> load p st = Some (t, st).
Proof.
  unfold text_of, load. destruct p; cbn; [done | by intros [= ->] |].
  destruct (blocks st !! b); cbn; [by intros [= ->] | done].
Qed.

Lemma print_from_spec cells len : forall rest i st ts,
  drop i cells = rest -> (i + length rest = len)%nat ->
  Forall2 (fun ps t => text_of st (str ps) = Some t) rest ts ->
  print_from (length rest) i cells len st =
  Some (tt, emit (concat ts ++ match rest with [] => [] | _ => [LF] end) st).
Proof.
  induction rest as [|ps rest IH]; intros i st ts Hdrop Hlen Htexts.
  - inversion Htexts. cbn. unfold mret, M_ret, emit.
    rewrite app_nil_r. by destruct st.
  - revert Hlen. inversion Htexts as [|? t ? ts' Ht Hts]; subst ts.
    intros Hlen. apply drop_cons_inv in Hdrop as [Hi Hdrop]. cbn [length] in Hlen.
    cbn [length print_from]. unfold mbind, M_bind, lift. rewrite Hi.
    unfold printf_s, mbind, M_bind.
    rewrite (load_text _ _ _ Ht).
    unfold write_stdout.
    set (st1 := Mem _ _ _ _ _ _ _).
    rewrite (IH (S i) st1 ts'); [|done|lia|].
    + unfold emit, st1. cbn. do 3 f_equal.
      case_bool_decide as Hlast.
      * assert (rest = []) as -> by (destruct rest; [done|cbn in Hlen; lia]).
        inversion Hts. cbn. by rewrite app_nil_r, <- app_assoc.
      * destruct rest; [cbn in Hlen; lia|].
        by rewrite <- !app_assoc.
    + eapply Forall2_impl; [exact Hts|]. intros ps' t' <-.
      by apply text_of_blocks.
Qed.



Lemma frag_ok_blocks n st st' ps :
  blocks st = blocks st' -> frag_ok n st ps -> frag_ok n st' ps.
Proof. unfold frag_ok, live. by intros ->. Qed.

Lemma make_exploded_prompt_spec prompt ws st elements cells len st1 :
  wf st ->
  make_exploded_prompt P prompt ws st = Some (elements, cells, len, st1) ->
  len = length prompt /\ length cells = length prompt /\
  grows_from (next st) st st1 /\ wf st1 /\
  Forall (frag_ok (next st + length (container elements)) st1) cells /\
  NoDup (owned_blocks cells) /\
  Forall (fun c => c = next st /\ live st1 c) (container elements) /\
  (forall s, elements <> Static s).
Proof.
  intros Hwf H. unfold make_exploded_prompt, mbind, M_bind in H.
  rewrite malloc_eq in H.
  destruct (grants st).
  - set (st0 := alloc_st _ st) in H.
    destruct (fill P _ 0 ws prompt st0) as [[cells' st']|] eqn:E; [|done].
    unfold mret, M_ret in H. injection H as <- <- <- <-.
    assert (G0 : grows_from (next st) st st0) by (subst st0; solve_grows).
    assert (Hwf0 : wf st0) by (apply (grows_wf _ _ _ G0 Hwf)).
    apply fill_spec in E as (G & Hlen & Hall & Hnd); [|done].
    split; [done|]. split; [done|]. split.
    { eapply grows_from_trans; [exact G0|].
      eapply grows_from_weaken; [|exact G]. cbn. lia. }
    split; [by apply (grows_wf _ _ _ G)|].
    split; [|split; [done|]].
    + cbn [container length]. replace (next st + 1)%nat with (next st0); [done|].
      subst st0. cbn. lia.
    + split; [|done]. cbn. constructor; [|done]. split; [done|]. unfold live.
      rewrite (grows_old _ _ _ G); [|subst st0; cbn; lia].
      subst st0. cbn. rewrite lookup_insert_eq. eauto.
  - set (st0 := deny_st st) in H.
    destruct (fill P NULL 0 ws prompt st0) as [[cells' st']|] eqn:E; [|done].
    unfold mret, M_ret in H. injection H as <- <- <- <-.
    destruct prompt; [|done]. cbn in E. unfold mret, M_ret in E.
    injection E as <- <-.
    split; [done|]. split; [done|].
    assert (G0 : grows_from (next st) st st0) by (subst st0; solve_grows).
    split; [done|]. split; [by apply (grows_wf _ _ _ G0)|].
    split; [constructor|]. split; [constructor|]. split; [constructor|done].
Qed.

Lemma exploded_prompt_free_spec n elements cells st :
  Forall (frag_ok n st) cells ->
  NoDup (owned_blocks cells) ->
  Forall (fun c => (c < n)%nat /\ live st c) (container elements) ->
  (forall s, elements <> Static s) ->
  exists st', exploded_prompt_free elements cells (length cells) st =
                Some (tt, st') /\
    freed st' = freed st ++ owned_blocks cells ++ container elements /\
    out st' = out st.
Proof.
  intros Hall Hnd Hc Hns. unfold exploded_prompt_free, mbind, M_bind.
  destruct (free_from_spec n cells cells 0 st) as (st' & E & F & B & N & O);
    [done..|].
  rewrite E. destruct elements as [|s|c]; cbn.
  - exists st'. rewrite app_nil_r. done.
  - by destruct (Hns s).
  - apply Forall_cons in Hc as [[Hlt [bl Hl]] _].
    rewrite B, Hl.
    + eexists. split; [done|]. cbn. rewrite F. by rewrite <- app_assoc.
    + intros Hin. destruct (owned_blocks_bound _ _ _ _ Hall Hin). lia.
Qed.

End Loops.

(** ** The earlier revision *)

Section EarlierFacts.

Variable P : platform.

(** Without the check on [malloc], a refused request makes the earlier
    [format_error] write through [NULL]; with the request granted the two
    revisions agree. *)
Lemma earlier_format_error err_str err st :
  Earlier.format_error P err_str err st =
  if HAVE_STRERRORNAME_NP P && negb (grants st) then None
  else format_error P err_str err st.
Proof.
  unfold Earlier.format_error, format_error.
  destruct (HAVE_STRERRORNAME_NP P); [|done]. cbn [andb].
  unfold mbind, M_bind. rewrite malloc_eq.
  destruct (grants st); [done|]. cbn [negb is_null].
  unfold strlcpy. by rewrite bool_decide_eq_false_2 by lia.
Qed.

(** X19. With the allocation request granted, the time resolvers of the
    two revisions give the same string, flag and state. *)
Lemma earlier_get_formatted_time w ps fmt st :
  grants st = true ->
  Earlier.get_formatted_time P w fmt st =
  (ps' ← get_formatted_time P w ps fmt; mret (str ps', needs_free ps')) st.
Proof.
  intros Hg. unfold Earlier.get_formatted_time, get_formatted_time, time.
  destruct (clock w) as [t|e].
  - unfold mbind, M_bind, mret, M_ret.
    destruct (t =? -1) eqn:Et.
    + unfold get_errno, report, mbind, M_bind, get_errno. cbv beta iota.
      rewrite (earlier_format_error (Static "!TIME!") (errno st) st), Hg, andb_false_r.
      by destruct (format_error P _ _ st) as [[[s nf] st']|].
    + rewrite malloc_or_error_eq, malloc_eq, Hg. cbn [set_str str is_null].
      destruct (strftime w _ _ fmt t _) as [[status st']|]; [|done].
      destruct (status =? 0); [|done].
      by destruct (free _ st') as [[[] st'']|].
  - unfold os_fail, set_errno, mbind, M_bind, mret, M_ret.
    change (-1 =? -1) with true.
    unfold get_errno, report, mbind, M_bind, get_errno.
    cbv beta iota. cbn [errno]. rewrite earlier_format_error.
    change (grants (Mem _ _ _ _ _ (budget st) _)) with (grants st).
    rewrite Hg, andb_false_r.
    by destruct (format_error P _ _ _) as [[[s nf] st']|].
Qed.

(** X18. The earlier [get_tty_basename] computes the basename into a
    buffer it never returns nor releases: the fragment is the terminal path
    itself, borrowed, and the buffer stays allocated. *)
Lemma earlier_get_tty_basename w st t b :
  stdout_tty w = inl tt ->
  tty_name w = inl t ->
  basename_of P t = inl b ->
  (length b < PATH_MAX P)%nat ->
  grants st = true ->
  Earlier.get_tty_basename P w st =
  Some (Static t, false, alloc_st (Block (PATH_MAX P) b) st).
Proof.
  intros Htty Hname Hbase Hlen Hg.
  unfold Earlier.get_tty_basename, isatty, ttyname, basename_r.
  rewrite Htty, Hname. unfold mbind, M_bind, mret, M_ret.
  cbn [negb is_null]. rewrite malloc_eq, Hg. cbn [load]. rewrite Hbase.
  by rewrite store_fresh by done.
Qed.

End EarlierFacts.

(** ** The tilde collapse *)

Lemma rd_nat cells (i l : nat) :
  rd cells (Z.of_nat i + Z.of_nat l) = cells !! (i + l)%nat.
Proof.
  unfold rd. rewrite (proj2 (Z.ltb_ge _ _)) by lia.
  f_equal. lia.
Qed.

Lemma take_S_insert (cells : list ascii) i c :
  (i < length cells)%nat -> take (S i) (<[i:=c]> cells) = take i cells ++ [c].
Proof.
  intros Hi. rewrite (take_S_r _ _ c) by (by apply list_lookup_insert_eq).
  by rewrite take_insert_ge by lia.
Qed.

(** The loop copies [todo], found [l] cells to the right of the write
    position, and stops at the terminator that follows it. *)
Lemma shift_left_copy : forall todo n cells i l,
  (length todo < n)%nat ->
  (i + length todo < length cells)%nat ->
  (forall j c, todo !! j = Some c -> cells !! (i + l + j)%nat = Some c) ->
  cells !! (i + l + length todo)%nat = Some NUL ->
  NUL ∉ todo ->
  exists cells',
    shift_left n cells i (Z.of_nat l) = Some cells' /\
    take (i + length todo + 1) cells' = take i cells ++ todo ++ [NUL].
Proof.
  induction todo as [|c todo IH]; intros n cells i l Hn Hi Hcopy Hend Hnul.
  - destruct n as [|n]; [cbn in Hn; lia|]. cbn [shift_left length] in *.
    rewrite rd_nat. rewrite Nat.add_0_r in Hend. rewrite Hend. cbn.
    unfold is_nul. rewrite bool_decide_eq_true_2 by done.
    unfold wr. rewrite bool_decide_eq_true_2 by lia.
    eexists. split; [reflexivity|].
    replace (i + 0 + 1)%nat with (S i) by lia. by apply take_S_insert; lia.
  - destruct n as [|n]; [cbn in Hn; lia|]. cbn [shift_left length] in *.
    rewrite rd_nat.
    pose proof (Hcopy 0%nat c eq_refl) as H0. rewrite Nat.add_0_r in H0.
    rewrite H0. cbn.
    apply not_elem_of_cons in Hnul as [Hc Hnul].
    unfold is_nul. rewrite bool_decide_eq_false_2 by done.
    unfold wr. rewrite bool_decide_eq_true_2 by lia. cbn.
    destruct (IH n (<[i:=c]> cells) (S i) l) as (cells' & E & T).
    + lia.
    + rewrite length_insert. lia.
    + intros j c' Hj. rewrite list_lookup_insert_ne by lia.
      replace (S i + l + j)%nat with (i + l + S j)%nat by lia.
      by apply Hcopy.
    + rewrite list_lookup_insert_ne by lia.
      replace (S i + l + length todo)%nat with (i + l + S (length todo))%nat
        by lia.
      done.
    + done.
    + exists cells'. split; [done|].
      replace (i + S (length todo) + 1)%nat with (S i + length todo + 1)%nat
        by lia.
      rewrite T, take_S_insert by lia. by rewrite <- app_assoc.
Qed.

(** With [len = -1] the loop reads the cell it has just written: it never
    meets a terminator and runs off the end of the array. *)
Lemma shift_left_backwards : forall n cells i c,
  (n + S i = length cells)%nat ->
  cells !! i = Some c -> c <> NUL ->
  shift_left n cells (S i) (-1) = None.
Proof.
  induction n as [|n IH]; intros cells i c Hlen Hc Hnz; [done|].
  cbn [shift_left]. unfold rd.
  replace (Z.of_nat (S i) + -1) with (Z.of_nat i) by lia.
  rewrite (proj2 (Z.ltb_ge _ _)) by lia. rewrite Nat2Z.id, Hc. cbn.
  unfold is_nul. rewrite bool_decide_eq_false_2 by done.
  unfold wr. rewrite bool_decide_eq_true_2 by lia. cbn.
  apply (IH _ (S i) c).
  - rewrite length_insert. lia.
  - apply list_lookup_insert_eq. lia.
  - done.
Qed.

Lemma cstr_app_nul (s t : list ascii) : NUL ∉ s -> cstr (s ++ NUL :: t) = s.
Proof.
  induction s as [|c s IH]; intros Hs; cbn.
  - unfold is_nul. by rewrite bool_decide_eq_true_2.
  - apply not_elem_of_cons in Hs as [Hc Hs].
    unfold is_nul. rewrite bool_decide_eq_false_2 by done. by rewrite IH.
Qed.

Lemma is_prefix_app (h rest : list ascii) : is_prefix h (h ++ rest) = true.
Proof.
  induction h as [|c h IH]; [done|]. cbn.
  by rewrite bool_decide_eq_true_2, IH.
Qed.

Lemma strstr_from_bound : forall big little i j,
  strstr_from i big little = Some j ->
  (j = i /\ is_prefix little big = true) \/ (i < j)%nat.
Proof.
  induction big as [|c big IH]; intros little i j; cbn.
  - destruct (is_prefix little []) eqn:E; [|done]. intros [= <-]. by left.
  - destruct (is_prefix little (c :: big)) eqn:E.
    + intros [= <-]. by left.
    + intros H. apply IH in H as [[-> _]|H]; right; lia.
Qed.

Lemma strnstr_start (big little : list ascii) n :
  (length big <= n)%nat ->
  strnstr big little n = Some 0%nat <-> is_prefix little big = true.
Proof.
  intros Hn. unfold strnstr. rewrite take_ge by done. split.
  - intros H. apply strstr_from_bound in H as [[_ H]|H]; [done|lia].
  - intros H. destruct big; cbn; cbn in H; by rewrite H.
Qed.

Lemma length_getcwd_cells (d : list ascii) n :
  (length d < n)%nat ->
  length (d ++ NUL :: drop (S (length d)) (replicate n NUL)) = n.
Proof.
  intros H. rewrite length_app. cbn. rewrite length_drop, length_replicate. lia.
Qed.

Section Tilde.

Variable P : platform.

(** X13. With a non-empty home directory found in [HOME], a working
    directory that begins with it is rendered with that prefix replaced by
    [~], whatever follows the prefix. *)
Lemma cwd_tilde_collapse w ps st h rest :
  env_HOME w = Some h ->
  h <> [] ->
  cwd w = inl (h ++ rest) ->
  NUL ∉ h ++ rest ->
  (length (h ++ rest) < PATH_MAX P)%nat ->
  grants st = true ->
  get_pwd_tilde P w ps false st =
  Some (PS (Heap (next st)) true,
        alloc_st (Block (length rest + 2) (tilde :: rest)) st).
Proof.
  intros Hhome Hne Hcwd Hnul Hlen Hg.
  unfold get_pwd_tilde, getcwd, get_home_dir, getenv_HOME.
  rewrite Hcwd, Hhome. cbv beta iota.
  rewrite bool_decide_eq_true_2 by done.
  set (pwd := (h ++ rest) ++ _).
  assert (Hl : length pwd = PATH_MAX P) by (by apply length_getcwd_cells).
  assert (Hcstr : cstr pwd = h ++ rest) by (by apply cstr_app_nul).
  unfold mbind, M_bind, mret, M_ret, HOME_DIR_NO_ALLOC, load.
  cbn [is_null negb Z.ltb Z.compare]. rewrite Hcstr.
  rewrite bool_decide_eq_true_2; last first.
  { apply strnstr_start; [lia|]. apply is_prefix_app. }
  rewrite length_app in Hlen.
  assert (Hh : (0 < length h)%nat) by (destruct h; [done|cbn; lia]).
  unfold lift, collapse_home, wr.
  rewrite bool_decide_eq_true_2 by lia. cbn [mbind option_bind].
  replace (Z.of_nat (strnlen h (PATH_MAX P)) - 1)
    with (Z.of_nat (length h - 1)) by (unfold strnlen; lia).
  destruct (shift_left_copy rest (PATH_MAX P - 1) (<[0%nat:=tilde]> pwd) 1
              (length h - 1)) as (cells' & E & T).
  - lia.
  - rewrite length_insert. lia.
  - intros j c Hj. rewrite list_lookup_insert_ne by lia.
    replace (1 + (length h - 1) + j)%nat with (length h + j)%nat by lia.
    subst pwd. rewrite <- !app_assoc. rewrite lookup_app_r by lia.
    replace (length h + j - length h)%nat with j by lia.
    rewrite lookup_app_l by (by eapply lookup_lt_Some). done.
  - rewrite list_lookup_insert_ne by lia.
    replace (1 + (length h - 1) + length rest)%nat
      with (length (h ++ rest) + 0)%nat by (rewrite length_app; lia).
    subst pwd. by rewrite lookup_app_r, Nat.add_0_r, Nat.sub_diag by lia.
  - intros Hin. apply Hnul. apply elem_of_app. by right.
  - rewrite E. cbn [Z.eqb HOME_DIR_ALLOC].
    assert (Hc : cstr cells' = tilde :: rest).
    { rewrite <- (take_drop (1 + length rest + 1) cells'), T.
      rewrite take_S_insert by lia. rewrite take_0. cbn [app].
      rewrite <- app_assoc. cbn [app].
      apply (cstr_app_nul (tilde :: rest)). intros Hin. apply elem_of_cons in Hin as [Hin|Hin].
      - done.
      - apply Hnul. apply elem_of_app. by right. }
    rewrite Hc. rewrite malloc_or_error_eq, Hg.
    cbn [set_str str is_null set_needs_free needs_free].
    unfold strlcpy. rewrite bool_decide_eq_false_2 by lia.
    assert (Hs : strnlen (tilde :: rest) (PATH_MAX P) = S (length rest))
      by (unfold strnlen; cbn [length]; lia).
    rewrite Hs. rewrite (take_ge (tilde :: rest)) by (cbn [length]; lia).
    rewrite store_fresh by (cbn [length cap]; lia). cbn [cap].
    do 4 f_equal. lia.
Qed.

(** X14. A working directory that does not begin with the home directory
    is rendered unchanged. *)
Lemma cwd_tilde_unchanged w ps st h d :
  env_HOME w = Some h ->
  is_prefix h d = false ->
  cwd w = inl d ->
  NUL ∉ d ->
  (length d < PATH_MAX P)%nat ->
  grants st = true ->
  get_pwd_tilde P w ps false st =
  Some (PS (Heap (next st)) true, alloc_st (Block (length d + 1) d) st).
Proof.
  intros Hhome Hpre Hcwd Hnul Hlen Hg.
  unfold get_pwd_tilde, getcwd, get_home_dir, getenv_HOME.
  rewrite Hcwd, Hhome. cbv beta iota.
  rewrite bool_decide_eq_true_2 by done.
  set (pwd := d ++ _).
  assert (Hcstr : cstr pwd = d) by (by apply cstr_app_nul).
  unfold mbind, M_bind, mret, M_ret, HOME_DIR_NO_ALLOC, load.
  cbn [is_null negb Z.ltb Z.compare]. rewrite Hcstr.
  rewrite bool_decide_eq_false_2; last first.
  { rewrite strnstr_start by lia. by rewrite Hpre. }
  cbn [Z.eqb HOME_DIR_ALLOC]. rewrite Hcstr.
  rewrite malloc_or_error_eq, Hg.
  cbn [set_str str is_null set_needs_free needs_free].
  unfold strlcpy. rewrite bool_decide_eq_false_2 by lia.
  assert (Hs : strnlen d (PATH_MAX P) = length d) by (unfold strnlen; lia).
  rewrite Hs. rewrite (take_ge d) by lia.
  rewrite store_fresh by (cbn; lia). reflexivity.
Qed.

End Tilde.

Example tilde_proj :
  option_map (fun r => text_of (snd r) (str (fst r)))
    (get_pwd_tilde macos
       (with_home (Some (lit "/home/alice")) (lit "/home/alice/proj") quiet)
       unset false boot) = Some (Some (lit "~/proj")).
Proof. vm_compute. reflexivity. Qed.

Example tilde_etc :
  option_map (fun r => text_of (snd r) (str (fst r)))
    (get_pwd_tilde macos
       (with_home (Some (lit "/home/alice")) (lit "/etc") quiet)
       unset false boot) = Some (Some (lit "/etc")).
Proof. vm_compute. reflexivity. Qed.

Example tilde_ice :
  option_map (fun r => text_of (snd r) (str (fst r)))
    (get_pwd_tilde macos
       (with_home (Some (lit "/home/al")) (lit "/home/alice") quiet)
       unset false boot) = Some (Some (lit "~ice")).
Proof. vm_compute. reflexivity. Qed.

(** ** Scratch buffers *)

Ltac solve_outstanding :=
  let b := fresh "b" in let bl := fresh "bl" in let Hbl := fresh "Hbl" in
  intros b [bl Hbl]; cbn in *;
  repeat match type of Hbl with
         | delete _ _ !! _ = Some _ => apply lookup_delete_Some in Hbl as [? Hbl]
         | <[_:=_]> _ !! _ = Some _ =>
             apply lookup_insert_Some in Hbl as [[? ?]|[? Hbl]];
             [subst; first [congruence | by right] |]
         end;
  left; by eexists.

(** The sibling of the home-directory lookup releases its scratch buffer on
    every path: when [get_username] returns, the only block it leaves
    allocated is the fragment it owns. *)
Lemma get_username_releases_scratch P w ps st ps' st' :
  get_username P w ps st = Some (ps', st') ->
  forall b, live st' b ->
    live st b \/ (needs_free ps' = true /\ str ps' = Heap b).
Proof.
  intros H.
  unfold get_username, sysconf, getpwuid_r, get_errno, os_fail, set_errno,
    free in H.
  destruct (HAVE_STRERRORNAME_NP P) eqn:HAVE.
  all: exec H.
  all: injection H as <- <-.
  all: solve_outstanding.
Qed.

Ltac finish_scratch :=
  eexists _, _, _; split; [reflexivity|];
  split; [cbn; rewrite ?lookup_insert_ne by lia; by rewrite lookup_insert_eq|];
  split; [first [discriminate | intros [= ?]; lia]|]; reflexivity.

(** After the cwd resolver returns, the scratch buffer of the home-directory
    lookup is still allocated next to the fragment. *)
Example two_blocks_outstanding :
  exists ps st',
    get_pwd_tilde macos homeless unset false boot = Some (ps, st') /\
    str ps = Heap 2 /\
    (map_to_list (blocks st')).*1 = [2%nat; 0%nat] /\
    freed st' = [1%nat].
Proof. vm_compute. eexists _, _. repeat split. Qed.

(** * The claims *)

Lemma wf_boot : wf boot.
Proof. intros b [bl Hbl]. cbn in Hbl. by rewrite lookup_empty in Hbl. Qed.

Lemma container_bound elements st st1 :
  Forall (fun c => c = next st /\ live st1 c) (container elements) ->
  Forall (fun c => (c < next st + length (container elements))%nat /\ live st1 c)
         (container elements).
Proof.
  destruct elements; cbn; [done..|]. intros H.
  apply Forall_cons in H as [[-> Hl] _]. constructor; [|done]. split; [lia|done].
Qed.

Lemma free_fresh bl st :
  free (Heap (next st)) (alloc_st bl st) =
  Some (tt, Mem (delete (next st) (<[next st := bl]> (blocks st)))
                (S (next st)) (freed st ++ [next st]) (denied st) (errno st)
                (tail (budget st)) (out st)).
Proof. unfold free, alloc_st. cbn. by rewrite lookup_insert_eq. Qed.

Lemma resolve_time P w e pat ps :
  time_pattern e = Some pat ->
  resolve P w e ps = get_formatted_time P w ps (Static pat).
Proof.
  unfold time_pattern, resolve, arg_ptr.
  destruct (type e); try done; try by intros [= <-].
  by intros ->.
Qed.

(** C1. Whatever the catalog and whatever the operating system and the
    allocator answer, every fragment [make_exploded_prompt] produces has its
    flag [needs_free] set exactly when its string is a heap block allocated
    during this render and still allocated; a borrowed fragment is [NULL] or
    a constant.  The owned blocks are pairwise distinct, and
    [exploded_prompt_free] succeeds and calls [free] on exactly these blocks,
    once each and in order, and then on the array. *)
Theorem ownership_flag_and_release P prompt ws st elements cells len st1 :
  wf st ->
  make_exploded_prompt P prompt ws st = Some (elements, cells, len, st1) ->
  (forall ps, ps ∈ cells ->
     (needs_free ps = true <->
      exists b, str ps = Heap b /\ (next st <= b)%nat /\ live st1 b) /\
     (needs_free ps = false -> str ps = NULL \/ exists s, str ps = Static s)) /\
  NoDup (owned_blocks cells) /\
  exists st2,
    exploded_prompt_free elements cells len st1 = Some (tt, st2) /\
    freed st2 = freed st1 ++ owned_blocks cells ++ container elements.
Proof.
  intros Hwf H.
  apply make_exploded_prompt_spec in H
    as (-> & Hlen & G & Hwf1 & Hall & Hnd & Hc & Hns); [|done].
  split; [|split; [done|]].
  - intros ps Hin. rewrite Forall_forall in Hall. specialize (Hall ps Hin).
    unfold frag_ok in Hall. destruct (needs_free ps).
    + destruct Hall as (b & Hs & Hb & Hl). split; [|done].
      split; [|done]. intros _. exists b. split; [done|]. split; [lia|done].
    + split; [|done]. split; [done|].
      intros (b & Hs & _). destruct Hall as [Hn|[s Hn]]; congruence.
  - rewrite <- Hlen.
    destruct (exploded_prompt_free_spec
                (next st + length (container elements)) elements cells st1)
      as (st2 & E & F & _); [done | done | by apply container_bound | done |].
    by eauto.
Qed.

Lemma ownership_flag_and_release_witness :
  match default_run with
  | Some (elements, cells, len, st1) =>
      NoDup (owned_blocks cells) /\
      exists st2,
        exploded_prompt_free elements cells len st1 = Some (tt, st2) /\
        freed st2 = freed st1 ++ owned_blocks cells ++ container elements
  | None => False
  end.
Proof.
  destruct default_run as [[[[elements cells] len] st1]|] eqn:E.
  - apply (ownership_flag_and_release macos prompt (fun _ => quiet) boot
             elements cells len st1 wf_boot E).
  - vm_compute in E. discriminate E.
Defined.

(** C2. With [strerrorname_np] and its buffer granted, [format_error]
    returns an owned string, but the string is [!] followed by the first 20
    characters of the name, without the closing [!]: the buffer holds
    [2 + strnlen name 20] bytes and the last [strlcat] has no room left. *)
Theorem format_error_omits_closing_mark P err_str err st :
  HAVE_STRERRORNAME_NP P = true ->
  grants st = true ->
  exists st' text,
    format_error P err_str err st = Some (Heap (next st), true, st') /\
    text_of st' (Heap (next st)) = Some text /\
    text = lit "!" ++ take 20 (strerrorname_np P err) /\
    text <> lit "!" ++ strerrorname_np P err ++ lit "!".
Proof.
  intros Hh Hg. rewrite format_error_eq, Hh, Hg.
  eexists _, (lit "!" ++ take 20 (strerrorname_np P err)).
  split; [done|]. split; [unfold text_of; by rewrite load_fresh|].
  split; [done|]. intros Heq.
  apply (f_equal length) in Heq. rewrite !length_app, length_take in Heq.
  cbn [length lit list_ascii_of_string] in Heq. lia.
Qed.

Lemma format_error_omits_closing_mark_witness :
  exists st' text,
    format_error glibc (Static "!GETCWD!") 2 boot = Some (Heap 0, true, st') /\
    text_of st' (Heap 0) = Some text /\
    text = lit "!ENOENT" /\
    text <> lit "!ENOENT!".
Proof.
  apply (format_error_omits_closing_mark glibc (Static "!GETCWD!") 2 boot);
    reflexivity.
Defined.

(** C3. When the allocation of the buffer for the canonical form fails,
    [format_error] returns the caller's default token with [needs_free]
    false, for every default token and error code. *)
Theorem format_error_allocation_failure P err_str err st :
  grants st = false ->
  format_error P err_str err st =
  Some (err_str, false, if HAVE_STRERRORNAME_NP P then deny_st st else st).
Proof.
  intros Hg. rewrite format_error_eq, Hg. by destruct (HAVE_STRERRORNAME_NP P).
Qed.

Lemma format_error_allocation_failure_witness :
  grants starved = false /\
  format_error glibc (Static "!TIME!") 75 starved =
  Some (Static "!TIME!", false, deny_st starved).
Proof.
  split; [reflexivity|].
  apply (format_error_allocation_failure glibc (Static "!TIME!") 75 starved).
  reflexivity.
Defined.

(** C4. For an element of a time kind with pattern [pat] (the fixed pattern
    of the kind, or the argument of the custom kind): when the clock read
    fails the fragment is what [format_error] returns for [!TIME!] and the
    error code; otherwise, the 50-byte buffer being granted, a formatting
    that yields nothing or does not fit releases the buffer and gives the
    borrowed [!STRFTIME!]; and a formatting that fits gives the owned
    buffer of capacity 50 holding the formatted time. *)
Theorem time_fragment P w e pat ps st :
  time_pattern e = Some pat ->
  (forall err, clock w = inr err ->
     resolve P w e ps st =
     (set_errno err;;
      '(s, nf) ← format_error P (Static "!TIME!") err;
      mret (PS s nf)) st) /\
  (forall t, clock w = inl t -> t <> -1 -> grants st = true ->
     (length (expand w t pat) = 0 \/ 50 <= length (expand w t pat))%nat ->
     exists st',
       resolve P w e ps st = Some (PS (Static "!STRFTIME!") false, st') /\
       blocks st' !! next st = None /\
       freed st' = freed st ++ [next st]) /\
  (forall t, clock w = inl t -> t <> -1 -> grants st = true ->
     (0 < length (expand w t pat) < 50)%nat ->
     resolve P w e ps st =
     Some (PS (Heap (next st)) true, alloc_st (Block 50 (expand w t pat)) st)).
Proof.
  intros Hpat. rewrite (resolve_time P w e pat ps Hpat).
  unfold get_formatted_time, time, strftime, MAX_STRFTIME_SIZE.
  split; [|split].
  - intros err ->. unfold os_fail, report, get_errno, set_errno.
    unfold mbind, M_bind, mret, M_ret. cbn. reflexivity.
  - intros t -> Ht Hg Hlen. unfold mbind, M_bind, mret, M_ret.
    rewrite (proj2 (Z.eqb_neq t (-1)) Ht).
    rewrite malloc_or_error_eq, Hg. cbn [set_str str is_null load].
    case_bool_decide as Hfit.
    + assert (Hz : length (expand w t pat) = 0%nat) by lia.
      rewrite store_fresh by (cbn; lia). rewrite Hz.
      change (Z.of_nat 0 =? 0) with true. cbv beta iota. rewrite free_fresh.
      eexists. split; [reflexivity|]. cbn. by rewrite lookup_delete_eq.
    + change (0 =? 0) with true. cbv beta iota. rewrite free_fresh.
      eexists. split; [reflexivity|]. cbn. by rewrite lookup_delete_eq.
  - intros t -> Ht Hg Hlen. unfold mbind, M_bind, mret, M_ret.
    rewrite (proj2 (Z.eqb_neq t (-1)) Ht).
    rewrite malloc_or_error_eq, Hg. cbn [set_str str is_null load].
    rewrite bool_decide_eq_true_2 by lia.
    rewrite store_fresh by (cbn; lia).
    rewrite (proj2 (Z.eqb_neq _ 0)) by lia. reflexivity.
Qed.

Lemma time_fragment_witness :
  resolve macos jammed_clock (Element HourMinute24 None) unset boot =
    Some (PS (Static "!TIME!") false, Mem ∅ 0 [] 0 75 [] []) /\
  (exists st',
     resolve macos verbose_clock (Element StrftimeDate (Some (lit "%H:%M")))
             unset boot = Some (PS (Static "!STRFTIME!") false, st') /\
     blocks st' !! 0%nat = None /\ freed st' = [0%nat]) /\
  resolve macos quiet (Element TimeAmPm None) unset boot =
    Some (PS (Heap 0) true, alloc_st (Block 50 (lit "12:00")) boot).
Proof.
  split; [|split].
  - apply (time_fragment macos jammed_clock (Element HourMinute24 None)
             (lit "%H:%M") unset boot eq_refl).
    reflexivity.
  - apply (time_fragment macos verbose_clock
             (Element StrftimeDate (Some (lit "%H:%M"))) (lit "%H:%M") unset
             boot eq_refl) with (t := 1700000000).
    + reflexivity.
    + discriminate.
    + reflexivity.
    + vm_compute. right. lia.
  - apply (time_fragment macos quiet (Element TimeAmPm None) (lit "%I:%M %p")
             unset boot eq_refl) with (t := 1700000000).
    + reflexivity.
    + discriminate.
    + reflexivity.
    + vm_compute. lia.
Defined.

(** C5. At an empty [HOME] the plain cwd resolver has no defined
    result: the working directory [/etc] begins with the empty home
    directory, and the replacement loop runs off the end of [pwd]. *)
Theorem cwd_tilde_with_empty_home :
  resolve macos (with_home (Some []) (lit "/etc") quiet)
          (Element PwdTrunc None) unset boot = None.
Proof. vm_compute. reflexivity. Qed.

(** C6. Whenever the home-directory lookup gets its passwd scratch buffer
    (no [HOME], a known buffer size, the request granted), it returns with
    that buffer still allocated, on the lookup-error path, the
    no-matching-record path and the success path alike: the buffer is not
    what it returns and [free] has not been called. *)
Theorem get_home_dir_keeps_its_scratch_buffer P w st n :
  env_HOME w = None ->
  getpw_r_size_max w = Limit n ->
  grants st = true ->
  exists status home st',
    get_home_dir P w st = Some (status, home, st') /\
    blocks st' !! next st = Some (Block n []) /\
    home <> Heap (next st) /\
    freed st' = freed st.
Proof.
  intros Hhome Hlimit Hg.
  unfold get_home_dir, getenv_HOME, sysconf, getpwuid_r, get_errno.
  rewrite Hhome, Hlimit.
  unfold mbind, M_bind, mret, M_ret. cbn [is_null negb].
  rewrite (proj2 (Z.eqb_neq (Z.of_nat n) (-1))) by lia.
  rewrite malloc_eq, Hg. cbn [is_null]. rewrite Nat2Z.id.
  destruct (pw_entry w) as [pw| |status sets].
  - cbn [Z.eqb negb]. rewrite strndup_eq.
    destruct (grants (alloc_st _ st)); cbn [is_null]; finish_scratch.
  - cbn [Z.eqb negb]. finish_scratch.
  - destruct sets as [e|]; unfold set_errno; cbn [Z.eqb negb];
      rewrite format_error_eq;
      destruct (HAVE_STRERRORNAME_NP P);
      try match goal with |- context [grants ?s] => destruct (grants s) end;
      finish_scratch.
Qed.

Lemma get_home_dir_keeps_its_scratch_buffer_witness :
  exists status home st',
    get_home_dir macos homeless boot = Some (status, home, st') /\
    blocks st' !! 0%nat = Some (Block 4096 []) /\
    home <> Heap 0 /\
    freed st' = [].
Proof.
  apply (get_home_dir_keeps_its_scratch_buffer macos homeless boot 4096);
    reflexivity.
Defined.

(** Where the result buffer itself is requested through
    [ps->str = malloc_or_error(ps, ...)], the [NULL] returned overwrites the
    [!MALLOC!] just recorded. *)
Example refused_result_buffer :
  get_formatted_time macos quiet unset (Static "%H:%M") starved =
  Some (PS NULL false, deny_st starved).
Proof. reflexivity. Qed.

(** A refused request leaves [ENOMEM] in [errno], which a later element may
    read: the user-name fragment after a failed user lookup that does not
    set [errno] itself. *)
Example refused_request_reaches_the_next_fragment :
  let lookup_fails :=
    World [] (inl 1700000000) (fun _ _ => lit "12:00") (Limit 255)
          (inl (lit "box")) (inl tt) (inl (lit "/dev/ttys003"))
          (inl (lit "/bin/zsh")) (Limit 4096) (PwError 5 None)
          None (inl (lit "/")) 501 in
  let clock_then_user :=
    [Element HourMinute24 None; Element Username None] in
  let refused (i : nat) :=
    match i with
    | O => World [false] (inl 1700000000) (fun _ _ => lit "12:00")
                 (Limit 255) (inl (lit "box")) (inl tt)
                 (inl (lit "/dev/ttys003")) (inl (lit "/bin/zsh"))
                 (Limit 4096) (PwError 5 None) None (inl (lit "/")) 501
    | _ => lookup_fails
    end in
  fragment_text glibc clock_then_user (fun _ => lookup_fails) 1 =
    Some (lit "!0") /\
  fragment_text glibc clock_then_user refused 1 = Some (lit "!ENOMEM").
Proof. split; vm_compute; reflexivity. Qed.

(** C7, as amended.  An allocation request that fails while an element is
    resolved leaves the fragment borrowed; [malloc_or_error] records the
    constant [!MALLOC!], which is the fragment when the failed request is
    the scratch buffer of the username resolver or of the home-directory
    lookup; a failed duplication of the user name gives [!STRNDUP!], a
    failed error-name buffer the default token; and the sequence keeps the
    length of the catalog. *)
Theorem allocation_failure_degrades_fragment P :
  (forall w e ps0 st ps st',
     resolve P w e ps0 st = Some (ps, st') ->
     (denied st < denied st')%nat ->
     needs_free ps = false /\
     (str ps = NULL \/ exists token, str ps = Static token)) /\
  (forall ps size st,
     grants st = false ->
     malloc_or_error ps size st =
     Some (NULL, PS (Static "!MALLOC!") false, deny_st st)) /\
  (forall w ps st n,
     getpw_r_size_max w = Limit n ->
     grants st = false ->
     get_username P w ps st = Some (PS (Static "!MALLOC!") false, deny_st st)) /\
  (forall w ps base st d n,
     cwd w = inl d -> (length d < PATH_MAX P)%nat ->
     env_HOME w = None ->
     getpw_r_size_max w = Limit n ->
     grants st = false ->
     get_pwd_tilde P w ps base st =
     Some (PS (Static "!MALLOC!") false, deny_st st)) /\
  (forall w ps st n pw bs,
     getpw_r_size_max w = Limit n ->
     pw_entry w = PwFound pw ->
     budget st = true :: false :: bs ->
     exists st',
       get_username P w ps st = Some (PS (Static "!STRNDUP!") false, st') /\
       denied st' = S (denied st)) /\
  (forall token st,
     grants st = false ->
     exists st', report P token st = Some (PS (Static token) false, st')) /\
  (forall prompt ws st elements cells len st1,
     wf st ->
     make_exploded_prompt P prompt ws st = Some (elements, cells, len, st1) ->
     length cells = length prompt).
Proof.
  split; [|split; [|split; [|split; [|split; [|split]]]]].
  - intros w e ps0 st ps st' H Hd.
    apply resolve_spec in H as [_ Ho]. unfold owned_from in Ho.
    destruct (needs_free ps); [|done].
    destruct Ho as (_ & _ & _ & _ & Heq). lia.
  - intros ps size st Hg. by rewrite malloc_or_error_eq, Hg.
  - intros w ps st n Hlimit Hg.
    unfold get_username, sysconf, get_errno. rewrite Hlimit.
    unfold mbind, M_bind, mret, M_ret.
    rewrite (proj2 (Z.eqb_neq (Z.of_nat n) (-1))) by lia.
    by rewrite malloc_or_error_eq, Hg.
  - intros w ps base st d n Hcwd Hlen Hhome Hlimit Hg.
    unfold get_pwd_tilde, getcwd, get_home_dir, getenv_HOME, sysconf,
      get_errno.
    rewrite Hcwd, Hhome, Hlimit. cbv beta iota.
    rewrite bool_decide_eq_true_2 by done.
    unfold mbind, M_bind, mret, M_ret. cbn [is_null negb].
    rewrite (proj2 (Z.eqb_neq (Z.of_nat n) (-1))) by lia.
    by rewrite malloc_eq, Hg.
  - intros w ps st n pw bs Hlimit Hpw Hb.
    unfold get_username, sysconf, get_errno, getpwuid_r. rewrite Hlimit, Hpw.
    unfold mbind, M_bind, mret, M_ret.
    rewrite (proj2 (Z.eqb_neq (Z.of_nat n) (-1))) by lia.
    rewrite malloc_or_error_eq. unfold grants at 1. rewrite Hb.
    cbn [is_null Z.eqb negb]. rewrite strndup_eq.
    unfold grants, alloc_st. cbn [budget]. rewrite Hb. cbn [tail is_null].
    unfold free, deny_st. cbn [blocks next]. rewrite lookup_insert_eq.
    eexists. split; reflexivity.
  - intros token st Hg. rewrite report_eq, Hg.
    destruct (HAVE_STRERRORNAME_NP P); eauto.
  - intros prompt ws st elements cells len st1 Hwf H.
    by apply make_exploded_prompt_spec in H as (_ & ? & _).
Qed.

Lemma allocation_failure_degrades_fragment_witness :
  get_username macos quiet unset (tight [false]) =
    Some (PS (Static "!MALLOC!") false, deny_st (tight [false])) /\
  (exists st',
     get_username macos quiet unset (tight [true; false]) =
       Some (PS (Static "!STRNDUP!") false, st') /\
     denied st' = 1%nat).
Proof.
  destruct (allocation_failure_degrades_fragment macos)
    as (_ & _ & Huser & _ & Hdup & _).
  split.
  - apply (Huser quiet unset (tight [false]) 4096%nat); reflexivity.
  - apply (Hdup quiet unset (tight [true; false]) 4096%nat
             (Passwd (lit "alice") (lit "/home/alice")) []); reflexivity.
Defined.

(** C7, as stated, fails: with the scratch buffer granted and the
    duplication of the user name refused, the fragment is [!STRNDUP!]. *)
Lemma allocation_failure_is_not_always_MALLOC_counterexample :
  ~ (forall P w e ps0 st ps st',
       resolve P w e ps0 st = Some (ps, st') ->
       (denied st < denied st')%nat ->
       ps = PS (Static "!MALLOC!") false).
Proof.
  intros H.
  assert (exists st',
            resolve macos quiet (Element Username None) unset
                    (tight [true; false]) =
              Some (PS (Static "!STRNDUP!") false, st') /\
            denied st' = 1%nat) as (st' & Hrun & Hd).
  { vm_compute. eexists. split; reflexivity. }
  specialize (H _ _ _ _ _ _ _ Hrun). rewrite Hd in H.
  specialize (H ltac:(cbn; lia)). discriminate H.
Qed.

(** C8, as amended.  For every non-empty catalog whose fragments all
    designate a text, [main] writes to standard output the texts in catalog
    order with nothing between them, then one newline; the resolved sequence
    has the length of the catalog. *)
Theorem main_output P prompt ws st elements cells len st1 texts :
  prompt <> [] ->
  wf st ->
  make_exploded_prompt P prompt ws st = Some (elements, cells, len, st1) ->
  Forall2 (fun ps t => text_of st1 (str ps) = Some t) cells texts ->
  length cells = length prompt /\
  exists st2,
    main P prompt ws st = Some (tt, st2) /\
    out st2 = out st ++ concat texts ++ [LF].
Proof.
  intros Hne Hwf H Htexts. unfold main, mbind, M_bind. rewrite H.
  apply make_exploded_prompt_spec in H
    as (-> & Hlen & G & Hwf1 & Hall & Hnd & Hc & Hns); [|done].
  split; [done|]. rewrite <- Hlen.
  rewrite (print_from_spec cells (length cells) cells 0 st1 texts);
    [|done|done|done].
  set (st1' := emit _ st1).
  destruct (exploded_prompt_free_spec
              (next st + length (container elements)) elements cells st1')
    as (st2 & E & F & O); [| done | | done |].
  - eapply Forall_impl; [exact Hall|]. intros ps. by apply frag_ok_blocks.
  - apply (container_bound elements st st1'). exact Hc.
  - exists st2. split; [done|]. rewrite O. subst st1'. cbn.
    rewrite (grows_out _ _ _ G). destruct cells; [|by rewrite app_assoc].
    destruct prompt; [done|discriminate Hlen].
Qed.

Lemma main_output_witness :
  exists st2,
    main macos prompt (fun _ => quiet) boot = Some (tt, st2) /\
    string_of_list_ascii (out st2) =
    string_of_list_ascii
      (ESC :: lit "[1;32malice@box" ++ ESC :: lit "[1;34m ~/proj $" ++
       ESC :: lit "[0m " ++ [LF]).
Proof.
  destruct default_run as [[[[elements cells] len] st1]|] eqn:E;
    [|vm_compute in E; discriminate E].
  destruct (main_output macos prompt (fun _ => quiet) boot elements cells len
              st1
              (omap (text_of st1 ∘ str) cells))
    as (_ & st2 & Hmain & Hout).
  - discriminate.
  - exact wf_boot.
  - exact E.
  - vm_compute in E. injection E as <- <- <- <-. vm_compute.
    repeat constructor.
  - exists st2. split; [exact Hmain|]. rewrite Hout.
    vm_compute in E. injection E as <- <- <- <-. vm_compute. reflexivity.
Defined.

(** C8, as stated, fails on the empty catalog: nothing is written, not
    even the newline. *)
Lemma main_empty_catalog_counterexample :
  ~ (forall P prompt ws st elements cells len st1 texts st2,
       wf st ->
       make_exploded_prompt P prompt ws st = Some (elements, cells, len, st1) ->
       Forall2 (fun ps t => text_of st1 (str ps) = Some t) cells texts ->
       main P prompt ws st = Some (tt, st2) ->
       out st2 = out st ++ concat texts ++ [LF]).
Proof.
  intros H.
  assert (exists st2, main macos [] (fun _ => quiet) boot = Some (tt, st2) /\
                      out st2 = []) as (st2 & Hmain & Hout).
  { vm_compute. eexists. split; reflexivity. }
  specialize (H macos [] (fun _ => quiet) boot (Heap 0) [] 0%nat
                (alloc_st (Block 0 []) boot) [] st2
                wf_boot eq_refl (proj2 (Forall2_nil _) I) Hmain).
  rewrite Hout in H. discriminate H.
Qed.

(** C9. Two renders of [FullHostname; Username] that differ only in what
    the operating system answers to the first element: the failure of the
    first element's [sysconf] leaves [errno] at the value the second
    element's [sysconf] sets, and the second fragment changes from
    [!SYSCONF!] to [!NOGETPWRSIZEMAX!]. *)
Theorem stale_errno_couples_elements :
  (forall j, j <> 0%nat -> ws_host_ok j = ws_host_fails j) /\
  fragment_text macos two_limits ws_host_ok 1 = Some (lit "!SYSCONF!") /\
  fragment_text macos two_limits ws_host_fails 1 =
    Some (lit "!NOGETPWRSIZEMAX!") /\
  fragment_text macos two_limits ws_host_ok 0 = Some (lit "box.example.org") /\
  fragment_text macos two_limits ws_host_fails 0 = Some (lit "!SYSCONF!").
Proof.
  split; [by intros [|j]|]. repeat split; vm_compute; reflexivity.
Qed.

(** C10. With an empty [HOME] every working directory begins with the home
    directory, and the cwd resolver has no defined result: the replacement
    loop runs off the end of [pwd]. *)
Theorem empty_home_leaves_the_array P w ps base st d :
  env_HOME w = Some [] ->
  cwd w = inl d ->
  (length d < PATH_MAX P)%nat ->
  get_pwd_tilde P w ps base st = None.
Proof.
  intros Hhome Hcwd Hlen.
  unfold get_pwd_tilde, getcwd, get_home_dir, getenv_HOME.
  rewrite Hcwd, Hhome. cbv beta iota.
  rewrite bool_decide_eq_true_2 by done.
  set (pwd := d ++ _).
  unfold mbind, M_bind, mret, M_ret, HOME_DIR_NO_ALLOC, load.
  cbn [is_null negb Z.ltb Z.compare].
  rewrite bool_decide_eq_true_2; last first.
  { unfold strnstr. by destruct (take (PATH_MAX P) (cstr pwd)). }
  unfold lift, collapse_home, wr.
  assert (Hl : length pwd = PATH_MAX P) by (by apply length_getcwd_cells).
  rewrite bool_decide_eq_true_2 by lia. cbn [mbind option_bind].
  rewrite (shift_left_backwards (PATH_MAX P - 1) (<[0%nat:=tilde]> pwd) 0 tilde).
  - done.
  - rewrite length_insert. lia.
  - apply list_lookup_insert_eq. lia.
  - done.
Qed.

Lemma empty_home_leaves_the_array_witness :
  get_pwd_tilde macos (with_home (Some []) (lit "/home/alice") quiet) unset
                false boot = None.
Proof.
  apply (empty_home_leaves_the_array macos _ unset false boot
           (lit "/home/alice")).
  - reflexivity.
  - reflexivity.
  - vm_compute. lia.
Defined.

(** The same dependence within one consistent world: where [sysconf] does
    not know the passwd buffer size and [HOME] is unset, the cwd fragment is
    [!SYSCONF!] when its element comes first, and the unabridged working
    directory when a [Username] element has been resolved before it. *)
Example position_changes_the_cwd_fragment :
  let w := with_limits (Limit 255) (SysconfError EINVAL) homeless in
  fragment_text macos [Element PwdTrunc None] (fun _ => w) 0 =
    Some (lit "!SYSCONF!") /\
  fragment_text macos [Element Username None; Element PwdTrunc None]
                (fun _ => w) 1 = Some (lit "/home/alice/proj").
Proof. split; vm_compute; reflexivity. Qed.

(** * Further properties *)

(** ** What a render leaves allocated *)

Section Outstanding.

Variable P : platform.

#[local] Arguments collapse_home : simpl never.
#[local] Arguments strnstr : simpl never.
#[local] Arguments cstr : simpl never.
#[local] Arguments strnlen : simpl never.
#[local] Arguments take : simpl never.
#[local] Arguments drop : simpl never.
#[local] Arguments replicate : simpl never.
#[local] Arguments Nat.sub : simpl never.
#[local] Arguments Nat.add : simpl never.
#[local] Arguments lit : simpl never.
#[local] Arguments cut_at : simpl never.

Lemma get_formatted_time_outstanding w ps fmt st ps' st' :
  get_formatted_time P w ps fmt st = Some (ps', st') -> only_fragment st ps' st'.
Proof.
  intros H.
  unfold get_formatted_time, time, strftime, os_fail, set_errno, free, load,
    store in H.
  destruct (HAVE_STRERRORNAME_NP P) eqn:HAVE.
  all: exec H.
  all: injection H as <- <-.
  all: solve_outstanding.
Qed.

Lemma get_hostname_outstanding w ps to_dot st ps' st' :
  get_hostname P w ps to_dot st = Some (ps', st') -> only_fragment st ps' st'.
Proof.
  intros H.
  unfold get_hostname, sysconf, gethostname, get_errno, os_fail, set_errno,
    free, load, store in H.
  destruct (HAVE_STRERRORNAME_NP P) eqn:HAVE.
  all: exec H.
  all: injection H as <- <-.
  all: solve_outstanding.
Qed.

Lemma get_tty_basename_outstanding w ps st ps' st' :
  get_tty_basename P w ps st = Some (ps', st') -> only_fragment st ps' st'.
Proof.
  intros H.
  unfold get_tty_basename, isatty, ttyname, basename_r, get_errno, os_fail,
    set_errno, free, load, store in H.
  destruct (HAVE_STRERRORNAME_NP P) eqn:HAVE.
  all: exec H.
  all: injection H as <- <-.
  all: solve_outstanding.
Qed.

Lemma get_parent_name_outstanding w ps st ps' st' :
  get_parent_name P w ps st = Some (ps', st') -> only_fragment st ps' st'.
Proof.
  intros H.
  unfold get_parent_name, proc_pidpath, get_errno, os_fail, set_errno, free,
    load, store in H.
  destruct (HAVE_STRERRORNAME_NP P) eqn:HAVE.
  all: exec H.
  all: injection H as <- <-.
  all: solve_outstanding.
Qed.

Lemma get_pwd_tilde_outstanding w ps base st ps' st' h :
  env_HOME w = Some h ->
  get_pwd_tilde P w ps base st = Some (ps', st') -> only_fragment st ps' st'.
Proof.
  intros Hhome H.
  unfold get_pwd_tilde, get_home_dir, getenv_HOME in H. rewrite Hhome in H.
  unfold getcwd, basename_r, get_errno, os_fail, set_errno, free, strlcpy,
    store, load, lift in H.
  destruct (HAVE_STRERRORNAME_NP P) eqn:HAVE.
  all: exec H.
  all: injection H as <- <-.
  all: solve_outstanding.
Qed.

End Outstanding.

Section Leaks.

Variable P : platform.

Lemma resolve_outstanding w e ps0 st ps st' :
  (is_cwd_kind (type e) = true -> env_HOME w <> None) ->
  resolve P w e ps0 st = Some (ps, st') -> only_fragment st ps st'.
Proof.
  intros Hcwd. unfold resolve.
  assert (Hstatic : forall p, (mret p : M prompt_string) st = Some (ps, st') ->
                              only_fragment st ps st').
  { intros p H. unfold mret, M_ret in H. injection H as <- <-.
    intros b Hb. by left. }
  destruct (type e) eqn:Et; try (by apply Hstatic).
  - apply get_hostname_outstanding.
  - apply get_hostname_outstanding.
  - apply get_tty_basename_outstanding.
  - apply get_parent_name_outstanding.
  - apply get_formatted_time_outstanding.
  - apply get_formatted_time_outstanding.
  - apply get_formatted_time_outstanding.
  - apply get_formatted_time_outstanding.
  - apply get_formatted_time_outstanding.
  - apply get_formatted_time_outstanding.
  - intros H. unfold only_fragment. by eapply get_username_releases_scratch.
  - destruct (env_HOME w) as [h|] eqn:Eh; [|by destruct Hcwd].
    by eapply get_pwd_tilde_outstanding.
  - destruct (env_HOME w) as [h|] eqn:Eh; [|by destruct Hcwd].
    by eapply get_pwd_tilde_outstanding.
Qed.

Lemma fill_outstanding elements ws rest : forall i st cells st',
  (forall k e, rest !! k = Some e -> is_cwd_kind (type e) = true ->
               env_HOME (ws (i + k)%nat) <> None) ->
  fill P elements i ws rest st = Some (cells, st') ->
  forall b, live st' b -> live st b \/ b ∈ owned_blocks cells.
Proof.
  induction rest as [|e rest IH]; intros i st cells st' Hhome H b Hb.
  - cbn in H. unfold mret, M_ret in H. injection H as <- <-. by left.
  - cbn [fill] in H. destruct (is_null elements); [discriminate|].
    unfold mbind, M_bind, set_budget in H.
    set (st0 := Mem _ _ _ _ _ _ _) in H.
    destruct (resolve P (ws i) e unset st0) as [[ps st1]|] eqn:E1;
      [|discriminate].
    destruct (fill P elements (S i) ws rest st1) as [[pss st2]|] eqn:E2;
      [|discriminate].
    unfold mret, M_ret in H. injection H as <- <-.
    apply resolve_outstanding in E1.
    2:{ intros Hk. apply (Hhome 0%nat e eq_refl) in Hk.
        by rewrite Nat.add_0_r in Hk. }
    eapply IH in E2; [| |exact Hb].
    2:{ intros k e' Hk Hc. specialize (Hhome (S k) e' Hk Hc).
        by replace (S i + k)%nat with (i + S k)%nat by lia. }
    unfold owned_blocks. cbn [omap list_omap].
    destruct E2 as [Hl|Hin].
    + apply E1 in Hl as [Hl|[Hnf Hs]]; [by left|]. right.
      unfold owned_block at 1. rewrite Hnf, Hs. apply elem_of_cons. by left.
    + right. destruct (owned_block ps); [|done]. apply elem_of_cons. by right.
Qed.

Lemma print_from_blocks cells len : forall n i st st',
  print_from n i cells len st = Some (tt, st') ->
  blocks st' = blocks st /\ next st' = next st.
Proof.
  induction n as [|n IH]; intros i st st' H.
  - cbn in H. unfold mret, M_ret in H. by injection H as <-.
  - cbn [print_from] in H. unfold mbind, M_bind, lift in H.
    destruct (cells !! i) as [ps|]; [|discriminate].
    unfold printf_s, mbind, M_bind, write_stdout in H.
    destruct (load (str ps) st) as [[t st0]|] eqn:El; [|discriminate].
    assert (st0 = st) as ->.
    { unfold load in El. destruct (str ps); [done | by injection El |].
      destruct (blocks st !! b); [by injection El | done]. }
    apply IH in H. by cbn in H.
Qed.

Lemma free_from_blocks n cells : forall rest i st st',
  drop i cells = rest ->
  Forall (frag_ok n st) rest ->
  NoDup (owned_blocks rest) ->
  free_from (length rest) i cells st = Some (tt, st') ->
  forall b, blocks st' !! b =
            if bool_decide (b ∈ owned_blocks rest) then None
            else blocks st !! b.
Proof.
  intros rest i st st' Hdrop Hall Hnd H b.
  destruct (free_from_spec n cells rest i st Hdrop Hall Hnd)
    as (st'' & E & F & B & _).
  rewrite E in H. injection H as <-.
  case_bool_decide as Hin; [|by apply B].
  clear B F. revert i st st'' Hdrop Hall Hnd E.
  induction rest as [|ps rest IH]; intros i st st'' Hdrop Hall Hnd E.
  - by apply elem_of_nil in Hin.
  - apply drop_cons_inv in Hdrop as [Hi Hdrop].
    apply Forall_cons in Hall as [Hps Hall].
    cbn [length free_from] in E. unfold mbind, M_bind, lift in E.
    rewrite Hi in E. unfold owned_blocks in *. cbn [omap list_omap] in *.
    unfold frag_ok in Hps.
    destruct (needs_free ps) eqn:Enf.
    + destruct Hps as (b0 & Hs & _ & [bl Hl]).
      assert (Eo : owned_block ps = Some b0)
        by (unfold owned_block; by rewrite Enf, Hs).
      rewrite Eo in *. rewrite Hs in E.
      apply NoDup_cons in Hnd as [Hnotin Hnd].
      unfold free in E. rewrite Hl in E.
      set (st0 := Mem _ _ _ _ _ _ _) in E.
      assert (Hall0 : Forall (frag_ok n st0) rest).
      { rewrite Forall_forall in Hall |- *. intros ps' Hin'.
        specialize (Hall ps' Hin'). unfold frag_ok in *.
        destruct (needs_free ps') eqn:Enf'; [|done].
        destruct Hall as (b' & Hs' & Hb' & Hl'). exists b'.
        split; [done|]. split; [done|]. unfold live. cbn.
        rewrite lookup_delete_ne; [done|]. intros ->. apply Hnotin.
        apply list_elem_of_omap. exists ps'. split; [done|].
        unfold owned_block. by rewrite Enf', Hs'. }
      apply elem_of_cons in Hin as [->|Hin].
      * destruct (free_from_spec n cells rest (S i) st0 Hdrop Hall0 Hnd)
          as (st3 & E3 & _ & B3 & _).
        rewrite E3 in E. injection E as <-.
        rewrite B3 by done. cbn. apply lookup_delete_eq.
      * eapply IH; eauto.
    + assert (Eo : owned_block ps = None)
        by (unfold owned_block; by rewrite Enf).
      rewrite Eo in *. unfold mret, M_ret in E. eapply IH; eauto.
Qed.

Lemma make_exploded_prompt_outstanding prompt ws st elements cells len st1 :
  (forall i e, prompt !! i = Some e -> is_cwd_kind (type e) = true ->
               env_HOME (ws i) <> None) ->
  make_exploded_prompt P prompt ws st = Some (elements, cells, len, st1) ->
  forall b, live st1 b ->
    live st b \/ b ∈ owned_blocks cells \/ b ∈ container elements.
Proof.
  intros Hhome H b Hb. unfold make_exploded_prompt, mbind, M_bind in H.
  rewrite malloc_eq in H.
  destruct (grants st).
  - destruct (fill P _ 0 ws prompt _) as [[cells' st']|] eqn:E; [|done].
    unfold mret, M_ret in H. injection H as <- <- <- <-.
    eapply fill_outstanding in E; [| |exact Hb]; [|done].
    destruct E as [[bl Hl]|Hin]; [|by auto].
    cbn in Hl. apply lookup_insert_Some in Hl as [[<- _]|[_ Hl]].
    + right. right. cbn. apply elem_of_cons. by left.
    + left. by eexists.
  - destruct (fill P NULL 0 ws prompt _) as [[cells' st']|] eqn:E; [|done].
    unfold mret, M_ret in H. injection H as <- <- <- <-.
    eapply fill_outstanding in E; [| |exact Hb]; [|done].
    destruct E as [Hl|Hin]; [left|by auto]. exact Hl.
Qed.

(** X1. The whole render gives back every block it allocated, provided no
    cwd element has to look the home directory up in the user database:
    [main] returns with the heap it started with. *)
Theorem main_returns_the_heap prompt ws st st2 :
  wf st ->
  (forall i e, prompt !! i = Some e -> is_cwd_kind (type e) = true ->
               env_HOME (ws i) <> None) ->
  main P prompt ws st = Some (tt, st2) ->
  blocks st2 = blocks st.
Proof.
  intros Hwf Hhome H. unfold main, mbind, M_bind in H.
  destruct (make_exploded_prompt P prompt ws st)
    as [[[[elements cells] len] st1]|] eqn:E; [|discriminate].
  pose proof (make_exploded_prompt_outstanding _ _ _ _ _ _ _ Hhome E) as Hout.
  apply make_exploded_prompt_spec in E
    as (-> & Hlen & G & Hwf1 & Hall & Hnd & Hc & Hns); [|done].
  destruct (print_from _ 0 cells _ st1) as [[[] st1p]|] eqn:Ep;
    [|discriminate].
  apply print_from_blocks in Ep as [Bp Np].
  unfold exploded_prompt_free, mbind, M_bind in H.
  rewrite <- Hlen in H.
  destruct (free_from (length cells) 0 cells st1p) as [[[] st3]|] eqn:Ef;
    [|discriminate].
  assert (Hall' : Forall (frag_ok (next st + length (container elements)) st1p)
                         cells).
  { eapply Forall_impl; [exact Hall|]. intros ps. by apply frag_ok_blocks. }
  pose proof (free_from_blocks _ cells cells 0%nat st1p st3 eq_refl Hall' Hnd Ef) as B3.
  assert (Hown : forall b, b ∈ owned_blocks cells -> (next st <= b)%nat /\
                            forall c, c ∈ container elements -> b <> c).
  { intros b Hin. destruct (owned_blocks_bound _ _ _ _ Hall Hin) as [Hb _].
    split; [lia|]. intros c Hcin. rewrite Forall_forall in Hc.
    destruct (Hc c Hcin) as [-> _]. destruct elements; cbn in *; try lia.
    all: by apply elem_of_nil in Hcin. }
  assert (Hold : forall b, (b < next st)%nat -> blocks st3 !! b = blocks st !! b).
  { intros b Hb. rewrite B3. rewrite bool_decide_eq_false_2.
    - rewrite Bp. by apply (grows_old _ _ _ G).
    - intros Hin. apply Hown in Hin as [? _]. lia. }
  assert (Hnew : forall b, (next st <= b)%nat -> b ∉ container elements ->
                           blocks st3 !! b = None).
  { intros b Hb Hnc. rewrite B3. case_bool_decide as Hin; [done|].
    rewrite Bp. destruct (blocks st1 !! b) as [bl|] eqn:El; [|done].
    destruct (Hout b (mk_is_Some _ _ El)) as [Hl|[?|?]]; [|done..].
    apply Hwf in Hl. lia. }
  apply map_eq. intros b.
  assert (Hnone : forall b, (next st <= b)%nat -> blocks st !! b = None).
  { intros b' Hb'. destruct (blocks st !! b') as [bl|] eqn:El; [|done].
    pose proof (Hwf b' (mk_is_Some _ _ El)). lia. }
  destruct elements as [|s|c].
  - cbn in H. injection H as <-.
    destruct (decide (b < next st)%nat); [by apply Hold|].
    rewrite Hnew, Hnone by (try lia; apply not_elem_of_nil). done.
  - by destruct (Hns s).
  - cbn in Hc. apply Forall_cons in Hc as [[-> _] _].
    unfold free in H. destruct (blocks st3 !! next st); [|discriminate].
    injection H as <-. cbn [blocks].
    destruct (decide (b = next st)) as [->|Hne].
    + rewrite lookup_delete_eq, Hnone by lia. done.
    + rewrite lookup_delete_ne by done.
      destruct (decide (b < next st)%nat); [by apply Hold|].
      rewrite Hnew, Hnone; [done | lia | lia |].
      cbn. intros Hin. apply list_elem_of_singleton in Hin. done.
Qed.

(** X2. Resolving one element writes nothing to standard output, leaves
    every block that existed before as it was, and, unless a cwd element
    has to look the home directory up in the user database, leaves
    allocated nothing but the fragment it owns. *)
Theorem resolve_leaves_only_its_fragment w e ps0 st ps st' :
  (is_cwd_kind (type e) = true -> env_HOME w <> None) ->
  resolve P w e ps0 st = Some (ps, st') ->
  out st' = out st /\
  (forall b, (b < next st)%nat -> blocks st' !! b = blocks st !! b) /\
  only_fragment st ps st'.
Proof.
  intros Hhome H. pose proof (resolve_spec _ _ _ _ _ _ _ H) as [G _].
  split; [apply (grows_out _ _ _ G)|]. split; [apply (grows_old _ _ _ G)|].
  by eapply resolve_outstanding.
Qed.

End Leaks.

Lemma main_returns_the_heap_witness :
  match main macos prompt (fun _ => quiet) boot with
  | Some (_, st2) => blocks st2 = blocks boot
  | None => False
  end.
Proof.
  destruct (main macos prompt (fun _ => quiet) boot) as [[[] st2]|] eqn:E.
  - apply (main_returns_the_heap macos prompt (fun _ => quiet) boot st2 wf_boot);
      [discriminate | exact E].
  - vm_compute in E. discriminate E.
Defined.

Lemma resolve_leaves_only_its_fragment_witness :
  match resolve macos quiet (Element Username None) unset boot with
  | Some (ps, st') =>
      out st' = out boot /\
      (forall b, (b < next boot)%nat -> blocks st' !! b = blocks boot !! b) /\
      only_fragment boot ps st'
  | None => False
  end.
Proof.
  destruct (resolve macos quiet (Element Username None) unset boot)
    as [[ps st']|] eqn:E.
  - apply (resolve_leaves_only_its_fragment macos quiet (Element Username None)
             unset boot ps st'); [discriminate | exact E].
  - vm_compute in E. discriminate E.
Defined.

(** ** The resolvers, path by path *)

Lemma cut_at_spec c (s : list ascii) :
  (c ∉ cut_at c s) /\
  (cut_at c s = s \/ exists rest, s = cut_at c s ++ c :: rest).
Proof.
  induction s as [|x s [IH1 IH2]]; cbn.
  - split; [apply not_elem_of_nil | by left].
  - case_bool_decide as Hx.
    + subst x. split; [apply not_elem_of_nil|]. right. by exists s.
    + split.
      * apply not_elem_of_cons. split; [congruence | done].
      * destruct IH2 as [->|[rest Hr]]; [by left|]. right. exists rest.
        cbn. by rewrite <- Hr.
Qed.

Lemma length_cut_at c (s : list ascii) : (length (cut_at c s) <= length s)%nat.
Proof.
  induction s as [|x s IH]; cbn; [done|]. case_bool_decide; cbn; lia.
Qed.

Lemma limit_known (n : nat) : (Z.of_nat n =? -1) = false.
Proof. apply Z.eqb_neq. lia. Qed.

Section Fragments.

Variable P : platform.

(** X3. With a known host-name limit, the buffer granted and a host name
    that fits it, the fragment is the owned buffer of that size holding the
    host name, or, for the short variant, the host name cut before its
    first dot. *)
Theorem hostname_fragment w ps to_dot st n h :
  host_name_max w = Limit n ->
  hostname w = inl h ->
  (length h < n)%nat ->
  grants st = true ->
  exists t,
    get_hostname P w ps to_dot st =
      Some (PS (Heap (next st)) true, alloc_st (Block n t) st) /\
    (to_dot = false -> t = h) /\
    (to_dot = true ->
       ("."%char ∉ t) /\ (t = h \/ exists rest, h = t ++ "."%char :: rest)).
Proof.
  intros Hmax Hname Hfit Hg.
  exists (if to_dot then cut_at "."%char h else h).
  split; [|split].
  - unfold get_hostname, sysconf, gethostname, get_errno. rewrite Hmax, Hname.
    unfold mbind, M_bind, mret, M_ret. rewrite limit_known, Nat2Z.id.
    rewrite malloc_or_error_eq, Hg.
    cbn [set_str str is_null set_needs_free needs_free].
    rewrite (store_fresh (Block n []) h st) by (cbn [cap]; lia).
    cbn [Z.eqb cap].
    destruct to_dot; [|done].
    rewrite load_fresh. cbn [content].
    rewrite store_fresh; [done|]. cbn [cap].
    pose proof (length_cut_at "."%char h). lia.
  - by intros ->.
  - intros ->. apply cut_at_spec.
Qed.

(** X4. A failure of [sysconf] is told from the absence of a limit by
    comparing [errno] with its value before the call: a failure that sets
    the code [errno] already held is reported as a missing limit, by the
    host-name and by the user-name resolver. *)
Theorem sysconf_error_is_seen_through_errno w ps to_dot st e :
  host_name_max w = SysconfError e ->
  getpw_r_size_max w = SysconfError e ->
  get_hostname P w ps to_dot st =
    (if e =? errno st
     then Some (PS (Static "!NOHOSTNAMEMAX!") false, errno_st e st)
     else report P "!SYSCONF!" (errno_st e st)) /\
  get_username P w ps st =
    (if e =? errno st
     then Some (PS (Static "!NOGETPWRSIZEMAX!") false, errno_st e st)
     else report P "!SYSCONF!" (errno_st e st)).
Proof.
  intros Hh Hu. split.
  - unfold get_hostname, sysconf, get_errno, os_fail, set_errno.
    rewrite Hh. unfold mbind, M_bind, mret, M_ret. cbn [errno].
    change (-1 =? -1) with true. cbv beta iota.
    fold (errno_st e st). change (errno (errno_st e st)) with e.
    by destruct (e =? errno st).
  - unfold get_username, sysconf, get_errno, os_fail, set_errno.
    rewrite Hu. unfold mbind, M_bind, mret, M_ret. cbn [errno].
    change (-1 =? -1) with true. cbv beta iota.
    fold (errno_st e st). change (errno (errno_st e st)) with e.
    rewrite (Z.eqb_sym (errno st) e).
    by destruct (e =? errno st).
Qed.

(** X5. With a known passwd buffer size and the scratch buffer granted: a
    user without a record gives the borrowed [nobody]; a user with one
    gives an owned copy of at most [PATH_MAX + 1] characters of the name;
    the scratch buffer is released on both paths. *)
Theorem username_fragment w ps st n :
  getpw_r_size_max w = Limit n ->
  grants st = true ->
  (pw_entry w = PwNotFound ->
     get_username P w ps st =
       Some (PS (Static "nobody") false, released_st (Block n []) st)) /\
  (forall pw,
     pw_entry w = PwFound pw ->
     grants (alloc_st (Block n []) st) = true ->
     exists st',
       get_username P w ps st = Some (PS (Heap (S (next st))) true, st') /\
       text_of st' (Heap (S (next st))) =
         Some (take (PATH_MAX P + 1) (pw_name pw)) /\
       blocks st' !! next st = None /\
       freed st' = freed st ++ [next st]).
Proof.
  intros Hmax Hg. split.
  - intros Hpw. unfold get_username, sysconf, getpwuid_r, get_errno.
    rewrite Hmax, Hpw. unfold mbind, M_bind, mret, M_ret.
    rewrite limit_known, Nat2Z.id, malloc_or_error_eq, Hg.
    cbn [is_null Z.eqb negb]. rewrite free_fresh. reflexivity.
  - intros pw Hpw Hg2. unfold get_username, sysconf, getpwuid_r, get_errno.
    rewrite Hmax, Hpw. unfold mbind, M_bind, mret, M_ret.
    rewrite limit_known, Nat2Z.id, malloc_or_error_eq, Hg.
    cbn [is_null Z.eqb negb]. rewrite strndup_eq, Hg2. cbn [is_null].
    unfold free, alloc_st. cbn [blocks next].
    rewrite lookup_insert_ne by lia. rewrite lookup_insert_eq.
    eexists. split; [reflexivity|]. unfold text_of, load. cbn.
    rewrite lookup_delete_ne by lia. rewrite lookup_insert_eq.
    split; [done|]. split; [|done]. by rewrite lookup_delete_eq.
Qed.

(** X6. The terminal fragment, path by path: standard output that is no
    terminal and a terminal without a name are reported through
    [format_error]; otherwise the fragment is the owned [PATH_MAX] buffer
    holding the basename of the terminal path, and a failing [basename_r]
    releases the buffer before it is reported. *)
Theorem tty_fragment w ps st :
  (forall e, stdout_tty w = inr e ->
     get_tty_basename P w ps st = report P "!ISATTY!" (errno_st e st)) /\
  (forall e, stdout_tty w = inl tt -> tty_name w = inr e ->
     get_tty_basename P w ps st = report P "!TTYNAME!" (errno_st e st)) /\
  (forall t b, stdout_tty w = inl tt -> tty_name w = inl t ->
     basename_of P t = inl b -> (length b < PATH_MAX P)%nat ->
     grants st = true ->
     get_tty_basename P w ps st =
       Some (PS (Heap (next st)) true, alloc_st (Block (PATH_MAX P) b) st)) /\
  (forall t e, stdout_tty w = inl tt -> tty_name w = inl t ->
     basename_of P t = inr e -> grants st = true ->
     get_tty_basename P w ps st =
       report P "!BASENAMER!"
              (errno_st e (released_st (Block (PATH_MAX P) []) st))).
Proof.
  split; [|split; [|split]].
  - intros e Htty. unfold get_tty_basename, isatty, os_fail, set_errno.
    rewrite Htty. unfold mbind, M_bind, mret, M_ret. reflexivity.
  - intros e Htty Hname.
    unfold get_tty_basename, isatty, ttyname, os_fail, set_errno.
    rewrite Htty, Hname. unfold mbind, M_bind, mret, M_ret. reflexivity.
  - intros t b Htty Hname Hb Hfit Hg.
    unfold get_tty_basename, isatty, ttyname, basename_r.
    rewrite Htty, Hname. unfold mbind, M_bind, mret, M_ret.
    cbn [negb is_null]. rewrite malloc_or_error_eq, Hg.
    cbn [set_str str is_null set_needs_free needs_free load]. rewrite Hb.
    by rewrite store_fresh by done.
  - intros t e Htty Hname Hb Hg.
    unfold get_tty_basename, isatty, ttyname, basename_r, os_fail, set_errno.
    rewrite Htty, Hname. unfold mbind, M_bind, mret, M_ret.
    cbn [negb is_null]. rewrite malloc_or_error_eq, Hg.
    cbn [set_str str is_null set_needs_free needs_free load]. rewrite Hb.
    cbn [is_null]. unfold free, alloc_st. cbn [blocks next].
    rewrite lookup_insert_eq. reflexivity.
Qed.

(** X7. The parent-process fragment: off macOS the buffer is requested,
    released at once and the fragment is the borrowed [!NOPROC!]; on macOS
    it is the owned buffer holding the path [proc_pidpath] wrote, and a
    failing [proc_pidpath] releases the buffer before it is reported. *)
Theorem parent_name_fragment w ps st :
  grants st = true ->
  (APPLE P = false ->
     get_parent_name P w ps st =
       Some (PS (Static "!NOPROC!") false,
             released_st (Block (PROC_PIDPATHINFO_MAXSIZE P) []) st)) /\
  (forall p, APPLE P = true -> parent_path w = inl p ->
     (0 < length p < PROC_PIDPATHINFO_MAXSIZE P)%nat ->
     get_parent_name P w ps st =
       Some (PS (Heap (next st)) true,
             alloc_st (Block (PROC_PIDPATHINFO_MAXSIZE P) p) st)) /\
  (forall e, APPLE P = true -> parent_path w = inr e ->
     get_parent_name P w ps st =
       report P "!PROCPIDPATH!"
         (errno_st e (released_st (Block (PROC_PIDPATHINFO_MAXSIZE P) []) st))).
Proof.
  intros Hg. split; [|split].
  - intros Ha. unfold get_parent_name. rewrite Ha.
    unfold mbind, M_bind, mret, M_ret. rewrite malloc_or_error_eq, Hg.
    cbn [set_str str is_null set_needs_free needs_free].
    by rewrite free_fresh.
  - intros p Ha Hp Hfit. unfold get_parent_name, proc_pidpath. rewrite Ha, Hp.
    unfold mbind, M_bind, mret, M_ret. rewrite malloc_or_error_eq, Hg.
    cbn [set_str str is_null set_needs_free needs_free].
    rewrite store_fresh by (cbn [cap]; lia).
    by rewrite (proj2 (Z.leb_gt _ _)) by lia.
  - intros e Ha Hp. unfold get_parent_name, proc_pidpath, os_fail, set_errno.
    rewrite Ha, Hp. unfold mbind, M_bind, mret, M_ret.
    rewrite malloc_or_error_eq, Hg.
    cbn [set_str str is_null set_needs_free needs_free Z.leb Z.compare].
    unfold free, alloc_st. cbn [blocks next]. rewrite lookup_insert_eq.
    reflexivity.
Qed.

(** X8. Where the result buffer is requested through
    [ps->str = malloc_or_error(ps, ...)], a refused request leaves the
    fragment [NULL] and borrowed, not [!MALLOC!]: in the time, host-name,
    terminal and parent-process resolvers. *)
Theorem refused_result_buffer_gives_null w ps st :
  grants st = false ->
  (forall t fmt, clock w = inl t -> t <> -1 ->
     get_formatted_time P w ps fmt st = Some (PS NULL false, deny_st st)) /\
  (forall n to_dot, host_name_max w = Limit n ->
     get_hostname P w ps to_dot st = Some (PS NULL false, deny_st st)) /\
  (forall t, stdout_tty w = inl tt -> tty_name w = inl t ->
     get_tty_basename P w ps st = Some (PS NULL false, deny_st st)) /\
  get_parent_name P w ps st = Some (PS NULL false, deny_st st).
Proof.
  intros Hg. split; [|split; [|split]].
  - intros t fmt Hc Ht. unfold get_formatted_time, time. rewrite Hc.
    unfold mbind, M_bind, mret, M_ret.
    rewrite (proj2 (Z.eqb_neq t (-1)) Ht).
    by rewrite malloc_or_error_eq, Hg.
  - intros n to_dot Hmax. unfold get_hostname, sysconf, get_errno.
    rewrite Hmax. unfold mbind, M_bind, mret, M_ret.
    by rewrite limit_known, malloc_or_error_eq, Hg.
  - intros t Htty Hname. unfold get_tty_basename, isatty, ttyname.
    rewrite Htty, Hname. unfold mbind, M_bind, mret, M_ret.
    cbn [negb is_null]. by rewrite malloc_or_error_eq, Hg.
  - unfold get_parent_name, mbind, M_bind, mret, M_ret.
    by rewrite malloc_or_error_eq, Hg.
Qed.

(** X9. The array of fragments is requested without a check: when the
    request is refused and the catalog is not empty, the first element is
    written through [NULL], and neither [make_exploded_prompt] nor [main]
    has a defined result. *)
Theorem refused_array_is_not_checked prompt ws st :
  grants st = false ->
  prompt <> [] ->
  make_exploded_prompt P prompt ws st = None /\ main P prompt ws st = None.
Proof.
  intros Hg Hne.
  assert (E : make_exploded_prompt P prompt ws st = None).
  { unfold make_exploded_prompt, mbind, M_bind. rewrite malloc_eq, Hg.
    by destruct prompt. }
  split; [done|]. unfold main, mbind, M_bind. by rewrite E.
Qed.

(** X10. The code [get_home_dir] returns is one of the four declared, and
    it tells what the pointer is: a heap block allocated by the call for
    the two codes that ask the caller to free, a string constant for the
    other two. *)
Theorem home_dir_code_tells_ownership w st status home st' :
  get_home_dir P w st = Some (status, home, st') ->
  (status = HOME_DIR_FAILED_MESSAGE_NO_ALLOC \/
   status = HOME_DIR_FAILED_MESSAGE_ALLOC \/
   status = HOME_DIR_NO_ALLOC \/ status = HOME_DIR_ALLOC) /\
  ((status = HOME_DIR_FAILED_MESSAGE_ALLOC \/ status = HOME_DIR_ALLOC) <->
   exists b, home = Heap b /\ (next st <= b)%nat /\ live st' b) /\
  ((status = HOME_DIR_FAILED_MESSAGE_NO_ALLOC \/ status = HOME_DIR_NO_ALLOC) <->
   exists s, home = Static s).
Proof.
  intros H. apply get_home_dir_spec in H as [_ Hok].
  unfold home_ok, HOME_DIR_FAILED_MESSAGE_ALLOC,
    HOME_DIR_FAILED_MESSAGE_NO_ALLOC, HOME_DIR_NO_ALLOC, HOME_DIR_ALLOC in *.
  destruct Hok as [(-> & b & -> & Hb & Hl & _) | [(-> & s & ->)
    | [(-> & (s & ->) & _) | (-> & b & -> & Hb & Hl & _)]]].
  - split; [by auto|]. split; split; eauto.
    + intros [|]; lia.
    + by intros (s & ?).
  - split; [by auto|]. split; split; eauto.
    + intros [|]; lia.
    + by intros (b & ? & _).
  - split; [by auto|]. split; split; eauto.
    + intros [|]; lia.
    + by intros (b & ? & _).
  - split; [by auto|]. split; split; eauto.
    + intros [|]; lia.
    + by intros (s & ?).
Qed.

End Fragments.

Lemma hostname_fragment_witness :
  exists t,
    get_hostname macos quiet unset true boot =
      Some (PS (Heap 0) true, alloc_st (Block 255 t) boot) /\
    (true = false -> t = lit "box.example.org") /\
    (true = true ->
       ("."%char ∉ t) /\
       (t = lit "box.example.org" \/
        exists rest, lit "box.example.org" = t ++ "."%char :: rest)).
Proof.
  apply (hostname_fragment macos quiet unset true boot 255
           (lit "box.example.org")); [reflexivity..| |reflexivity].
  vm_compute. lia.
Defined.

Lemma sysconf_error_is_seen_through_errno_witness :
  get_hostname macos no_limits unset false (errno_st EINVAL boot) =
    Some (PS (Static "!NOHOSTNAMEMAX!") false, errno_st EINVAL boot) /\
  get_username macos no_limits unset (errno_st EINVAL boot) =
    Some (PS (Static "!NOGETPWRSIZEMAX!") false, errno_st EINVAL boot).
Proof.
  apply (sysconf_error_is_seen_through_errno macos no_limits unset false
           (errno_st EINVAL boot) EINVAL); reflexivity.
Defined.

Lemma username_fragment_witness :
  exists st',
    get_username macos quiet unset boot = Some (PS (Heap 1) true, st') /\
    text_of st' (Heap 1) = Some (lit "alice") /\
    blocks st' !! 0%nat = None /\
    freed st' = [0%nat].
Proof.
  destruct (username_fragment macos quiet unset boot 4096 eq_refl eq_refl)
    as [_ H].
  apply (H (Passwd (lit "alice") (lit "/home/alice"))); reflexivity.
Defined.

Lemma tty_fragment_witness :
  get_tty_basename macos quiet unset boot =
    Some (PS (Heap 0) true, alloc_st (Block 1024 (lit "ttys003")) boot).
Proof.
  destruct (tty_fragment macos quiet unset boot) as (_ & _ & H & _).
  apply (H (lit "/dev/ttys003") (lit "ttys003")); try reflexivity.
  vm_compute. lia.
Defined.

Lemma parent_name_fragment_witness :
  get_parent_name glibc quiet unset boot =
    Some (PS (Static "!NOPROC!") false, released_st (Block 4096 []) boot) /\
  get_parent_name macos quiet unset boot =
    Some (PS (Heap 0) true, alloc_st (Block 4096 (lit "/bin/zsh")) boot).
Proof.
  split.
  - destruct (parent_name_fragment glibc quiet unset boot eq_refl) as [H _].
    apply H. reflexivity.
  - destruct (parent_name_fragment macos quiet unset boot eq_refl)
      as (_ & H & _).
    apply (H (lit "/bin/zsh")); try reflexivity. vm_compute. lia.
Defined.

Lemma refused_result_buffer_gives_null_witness :
  get_parent_name macos quiet unset starved = Some (PS NULL false, deny_st starved) /\
  get_hostname macos quiet unset true starved =
    Some (PS NULL false, deny_st starved).
Proof.
  destruct (refused_result_buffer_gives_null macos quiet unset starved eq_refl)
    as (_ & Hh & _ & Hp).
  split; [exact Hp|]. apply (Hh 255%nat). reflexivity.
Defined.

Lemma refused_array_is_not_checked_witness :
  make_exploded_prompt macos prompt (fun _ => quiet) starved = None /\
  main macos prompt (fun _ => quiet) starved = None.
Proof.
  apply (refused_array_is_not_checked macos prompt (fun _ => quiet) starved);
    [reflexivity | discriminate].
Defined.

Lemma home_dir_code_tells_ownership_witness :
  match get_home_dir macos homeless boot with
  | Some (status, home, st') =>
      (status = HOME_DIR_FAILED_MESSAGE_NO_ALLOC \/
       status = HOME_DIR_FAILED_MESSAGE_ALLOC \/
       status = HOME_DIR_NO_ALLOC \/ status = HOME_DIR_ALLOC) /\
      ((status = HOME_DIR_FAILED_MESSAGE_ALLOC \/ status = HOME_DIR_ALLOC) <->
       exists b, home = Heap b /\ (next boot <= b)%nat /\ live st' b) /\
      ((status = HOME_DIR_FAILED_MESSAGE_NO_ALLOC \/
        status = HOME_DIR_NO_ALLOC) <->
       exists s, home = Static s)
  | None => False
  end.
Proof.
  destruct (get_home_dir macos homeless boot) as [[[status home] st']|] eqn:E.
  - apply (home_dir_code_tells_ownership macos homeless boot status home st' E).
  - vm_compute in E. discriminate E.
Defined.

(** ** The copy of the working directory *)

Lemma cstr_bound : forall (cells : list ascii) j,
  cells !! j = Some NUL -> (length (cstr cells) <= j)%nat.
Proof.
  induction cells as [|c cells IH]; intros j Hj; [done|].
  cbn [cstr]. unfold is_nul. case_bool_decide as Hc; [cbn; lia|].
  destruct j as [|j]; [cbn in Hj; congruence|].
  cbn [length]. apply IH in Hj. lia.
Qed.

Lemma shift_left_terminates : forall n cells i len cells',
  shift_left n cells i len = Some cells' ->
  length cells' = length cells /\
  exists j, (j < length cells)%nat /\ cells' !! j = Some NUL.
Proof.
  induction n as [|n IH]; intros cells i len cells' H; [done|].
  cbn [shift_left] in H.
  destruct (rd cells (Z.of_nat i + len)) as [c|]; [|done]. cbn in H.
  unfold wr in H.
  destruct (is_nul c).
  - case_bool_decide as Hi; [|done]. injection H as <-.
    rewrite length_insert. split; [done|]. exists i.
    split; [done|]. by apply list_lookup_insert_eq.
  - case_bool_decide as Hi; [|done]. cbn in H.
    apply IH in H as [Hl (j & Hj & Hn)]. rewrite length_insert in *.
    split; [done|]. by exists j.
Qed.

Lemma collapse_home_terminated P pwd h pwd' :
  collapse_home P pwd h = Some pwd' ->
  (length (cstr pwd') < length pwd)%nat.
Proof.
  unfold collapse_home, wr. case_bool_decide as H0; [|done]. cbn.
  intros H. apply shift_left_terminates in H as [_ (j & Hj & Hn)].
  rewrite length_insert in Hj. apply cstr_bound in Hn. lia.
Qed.

Lemma strlcpy_overflow b bl (s : list ascii) size st :
  blocks st !! b = Some bl ->
  (cap bl <= length s)%nat -> (cap bl < size)%nat ->
  strlcpy (Heap b) s size st = None.
Proof.
  intros Hb Hs Hsz. unfold strlcpy.
  rewrite bool_decide_eq_false_2 by lia.
  unfold store. rewrite Hb.
  rewrite bool_decide_eq_false_2; [done|]. rewrite length_take. lia.
Qed.

Section WorkingDirectory.

Variable P : platform.

(** X11. Where [basename_r] cannot fail, the basename variant of the cwd
    resolver gives what the plain one gives: the basename is computed into
    the result buffer and then overwritten by the copy of the whole
    path. *)
Theorem basename_variant_copies_the_whole_path w ps st r :
  (forall p, exists b, basename_of P p = inl b) ->
  get_pwd_tilde P w ps true st = Some r ->
  get_pwd_tilde P w ps false st = Some r.
Proof.
  intros Hb. unfold get_pwd_tilde. unfold mbind, M_bind.
  destruct (getcwd w _ _ st) as [[[pwd|] st0]|] eqn:Ecwd; [|done|done].
  assert (Hpos : PATH_MAX P <> 0%nat).
  { unfold getcwd in Ecwd. destruct (cwd w) as [d|e]; [|done].
    case_bool_decide as Hd; [lia|done]. }
  clear Ecwd.
  destruct (get_home_dir P w st0) as [[[status home] st1]|]; [|done].
  destruct (status <? 0); [done|].
  destruct (load home st1) as [[h st2]|]; [|done].
  match goal with
  | |- context [(if bool_decide ?c then ?a else ?b) st2] =>
      destruct ((if bool_decide c then a else b) st2) as [[pwd' st3]|]; [|done]
  end.
  match goal with
  | |- context [(if ?c then ?a else ?b) st3] =>
      destruct ((if c then a else b) st3) as [[[] st4]|]; [|done]
  end.
  rewrite malloc_or_error_eq. destruct (grants st4); [|intros H; exact H].
  cbn [set_str str is_null set_needs_free needs_free].
  unfold basename_r. destruct (Hb (cstr pwd')) as [b ->].
  unfold mbind, M_bind, mret, M_ret, strlcpy.
  unfold store at 1. unfold alloc_st at 1. cbn [blocks next cap].
  rewrite lookup_insert_eq. cbn [cap].
  case_bool_decide as Hfit; [|done]. cbn [is_null].
  case_bool_decide as Hz; [done|].
  unfold store, alloc_st. cbn [blocks next cap freed denied errno budget out].
  rewrite !lookup_insert_eq. cbn [cap].
  case_bool_decide as Hfit'; [|done].
  by rewrite !insert_insert_eq.
Qed.

(** X12. With [HOME] unset and no definite size for the passwd buffer, the
    diagnostic [get_home_dir] returns with the success code is taken for
    the home directory: the working directory is rendered whole and the
    diagnostic is not shown. *)
Theorem unresolved_home_shows_the_whole_path w ps st d :
  env_HOME w = None ->
  getpw_r_size_max w = Indeterminate ->
  cwd w = inl ("/"%char :: d) ->
  NUL ∉ d ->
  (S (length d) < PATH_MAX P)%nat ->
  grants st = true ->
  get_pwd_tilde P w ps false st =
  Some (PS (Heap (next st)) true,
        alloc_st (Block (length d + 2) ("/"%char :: d)) st).
Proof.
  intros Hhome Hmax Hcwd Hnul Hlen Hg.
  unfold get_pwd_tilde, getcwd, get_home_dir, getenv_HOME, sysconf, get_errno.
  rewrite Hcwd, Hhome, Hmax. cbv beta iota.
  rewrite bool_decide_eq_true_2 by (cbn [length]; lia).
  set (pwd := ("/"%char :: d) ++ _).
  assert (Hcstr : cstr pwd = "/"%char :: d).
  { apply cstr_app_nul. apply not_elem_of_cons. split; [done|done]. }
  unfold mbind, M_bind, mret, M_ret, HOME_DIR_NO_ALLOC, load.
  cbn [is_null negb]. change (-1 =? -1) with true. cbv beta iota.
  rewrite Z.eqb_refl. cbn [Z.ltb Z.compare]. rewrite Hcstr.
  rewrite bool_decide_eq_false_2; last first.
  { rewrite strnstr_start by (cbn [length]; lia). done. }
  cbn [Z.eqb HOME_DIR_ALLOC]. rewrite Hcstr.
  rewrite malloc_or_error_eq, Hg.
  cbn [set_str str is_null set_needs_free needs_free].
  unfold strlcpy. rewrite bool_decide_eq_false_2 by lia.
  assert (Hs : strnlen ("/"%char :: d) (PATH_MAX P) = S (length d))
    by (unfold strnlen; cbn [length]; lia).
  rewrite Hs. rewrite (take_ge ("/"%char :: d)) by (cbn [length]; lia).
  rewrite store_fresh by (cbn [length cap]; lia). cbn [cap].
  do 4 f_equal. lia.
Qed.

(** ** The earlier revision *)

(** X15. In the earlier revision no allocation is checked: a refused
    request is written through, and [format_error], the time, terminal and
    user-name resolvers and the home-directory lookup have no defined
    result where the later revision degrades the fragment. *)
Theorem earlier_refused_allocation_is_undefined w st :
  grants st = false ->
  (forall err_str err, HAVE_STRERRORNAME_NP P = true ->
     Earlier.format_error P err_str err st = None) /\
  (forall t f, clock w = inl t -> t <> -1 ->
     (length (expand w t f) < MAX_STRFTIME_SIZE)%nat ->
     Earlier.get_formatted_time P w (Static f) st = None) /\
  (forall t b, stdout_tty w = inl tt -> tty_name w = inl t ->
     basename_of P t = inl b ->
     Earlier.get_tty_basename P w st = None) /\
  (forall n, getpw_r_size_max w = Limit n ->
     Earlier.get_username P w st = None) /\
  (forall n, env_HOME w = None -> getpw_r_size_max w = Limit n ->
     Earlier.get_home_dir P w st = None).
Proof.
  intros Hg. split; [|split; [|split; [|split]]].
  - intros err_str err HAVE. rewrite earlier_format_error, HAVE, Hg. done.
  - intros t f Hc Ht Hfit.
    unfold Earlier.get_formatted_time, time, strftime.
    rewrite Hc. unfold mbind, M_bind, mret, M_ret.
    rewrite (proj2 (Z.eqb_neq t (-1)) Ht). rewrite malloc_eq, Hg.
    cbn [load]. by rewrite bool_decide_eq_true_2 by done.
  - intros t b Htty Hname Hb.
    unfold Earlier.get_tty_basename, isatty, ttyname, basename_r.
    rewrite Htty, Hname. unfold mbind, M_bind, mret, M_ret.
    cbn [negb is_null]. rewrite malloc_eq, Hg. cbn [load]. by rewrite Hb.
  - intros n Hmax. unfold Earlier.get_username, sysconf, get_errno.
    rewrite Hmax. unfold mbind, M_bind, mret, M_ret.
    by rewrite limit_known, malloc_eq, Hg.
  - intros n Hhome Hmax.
    unfold Earlier.get_home_dir, getenv_HOME, sysconf, get_errno.
    rewrite Hhome, Hmax. unfold mbind, M_bind, mret, M_ret.
    cbn [is_null negb]. by rewrite limit_known, malloc_eq, Hg.
Qed.

(** X16. On the success path the earlier [get_username] returns the copy
    of the name and leaves its scratch buffer allocated, where the later
    revision releases it. *)
Theorem earlier_username_keeps_its_scratch_buffer w st n pw :
  getpw_r_size_max w = Limit n ->
  pw_entry w = PwFound pw ->
  grants st = true ->
  grants (alloc_st (Block n []) st) = true ->
  exists st',
    Earlier.get_username P w st = Some (Heap (S (next st)), true, st') /\
    blocks st' !! next st = Some (Block n []) /\
    freed st' = freed st /\
    (exists ps' st'', get_username P w unset st = Some (ps', st'') /\
                      blocks st'' !! next st = None).
Proof.
  intros Hmax Hpw Hg Hg2. eexists. split; [|split; [|split]].
  - unfold Earlier.get_username, Earlier.getpwuid_r_into, sysconf, getpwuid_r,
      get_errno.
    rewrite Hmax, Hpw. unfold mbind, M_bind, mret, M_ret.
    rewrite limit_known, Nat2Z.id, malloc_eq, Hg.
    cbn [is_null Z.eqb negb]. rewrite strndup_eq, Hg2. cbn [is_null].
    reflexivity.
  - unfold alloc_st. cbn [blocks next].
    rewrite lookup_insert_ne by lia. by rewrite lookup_insert_eq.
  - done.
  - unfold get_username, sysconf, getpwuid_r, get_errno.
    rewrite Hmax, Hpw. unfold mbind, M_bind, mret, M_ret.
    rewrite limit_known, Nat2Z.id, malloc_or_error_eq, Hg.
    cbn [is_null Z.eqb negb]. rewrite strndup_eq, Hg2. cbn [is_null].
    unfold free, alloc_st. cbn [blocks next].
    rewrite lookup_insert_ne by lia. rewrite lookup_insert_eq.
    eexists _, _. split; [reflexivity|]. cbn [blocks].
    by rewrite lookup_delete_eq.
Qed.

(** X17. The earlier [get_pwd_tilde] sizes its result buffer without the
    terminator: once the working directory is read and [HOME] is set, the
    copy never fits the buffer, and the resolver has no defined result. *)
Theorem earlier_cwd_copy_overflows w st h d :
  env_HOME w = Some h ->
  cwd w = inl d ->
  (length d < PATH_MAX P)%nat ->
  Earlier.get_pwd_tilde P w false st = None /\
  ((forall p, exists b, basename_of P p = inl b) ->
   Earlier.get_pwd_tilde P w true st = None).
Proof.
  intros Hhome Hcwd Hlen.
  assert (Hgen : forall base,
    (base = true -> forall p, exists b, basename_of P p = inl b) ->
    Earlier.get_pwd_tilde P w base st = None).
  { intros base Hb.
    unfold Earlier.get_pwd_tilde, getcwd, Earlier.get_home_dir, getenv_HOME.
    rewrite Hcwd, Hhome. cbv beta iota.
    rewrite bool_decide_eq_true_2 by done.
    set (pwd := d ++ _).
    assert (Hl : length pwd = PATH_MAX P) by (by apply length_getcwd_cells).
    assert (Hc0 : (length (cstr pwd) < PATH_MAX P)%nat).
    { assert (pwd !! length d = Some NUL) as Hn.
      { subst pwd. rewrite lookup_app_r by lia. by rewrite Nat.sub_diag. }
      apply cstr_bound in Hn. lia. }
    unfold mbind, M_bind, mret, M_ret, HOME_DIR_NO_ALLOC, load.
    cbn [is_null negb Z.ltb Z.compare].
    match goal with
    | |- context [(if bool_decide ?c then ?a else ?b) st] =>
        destruct ((if bool_decide c then a else b) st) as [[pwd' st0]|] eqn:E;
          [|done]
    end.
    assert (Hc : (length (cstr pwd') < PATH_MAX P)%nat).
    { case_bool_decide as Hm.
      - unfold lift in E.
        destruct (collapse_home P pwd h) as [pwd''|] eqn:E'; [|done].
        injection E as <- <-. apply collapse_home_terminated in E'.
        by rewrite <- Hl.
      - unfold mret, M_ret in E. by injection E as <- <-. }
    clear E. cbn [Z.eqb HOME_DIR_ALLOC]. rewrite malloc_eq.
    assert (Hs : strnlen (cstr pwd') (PATH_MAX P) = length (cstr pwd'))
      by (unfold strnlen; lia).
    rewrite Hs.
    destruct (grants st0).
    - destruct base.
      + unfold basename_r. destruct (Hb eq_refl (cstr pwd')) as [b ->].
        unfold mbind, M_bind, mret, M_ret.
        unfold store, alloc_st. cbn [blocks next]. rewrite lookup_insert_eq.
        case_bool_decide as Hfit; [|done]. cbn [is_null cap] in *.
        rewrite (strlcpy_overflow (next st0) (Block (length (cstr pwd')) b));
          [done|cbn [blocks]; by rewrite lookup_insert_eq
          |cbn [cap]; lia|cbn [cap]; lia].
      + rewrite (strlcpy_overflow (next st0) (Block (length (cstr pwd')) []));
          [done|unfold alloc_st; cbn [blocks]; by rewrite lookup_insert_eq
          |cbn [cap]; lia|cbn [cap]; lia].
    - destruct base.
      + unfold basename_r. destruct (Hb eq_refl (cstr pwd')) as [b ->].
        done.
      + unfold strlcpy. by rewrite bool_decide_eq_false_2 by lia. }
  split; [by apply Hgen|]. intros Hb. apply Hgen. by intros _.
Qed.

End WorkingDirectory.

Lemma basename_variant_copies_the_whole_path_witness :
  match get_pwd_tilde macos quiet unset true boot with
  | Some r =>
      get_pwd_tilde macos quiet unset false boot = Some r /\
      text_of (snd r) (str (fst r)) = Some (lit "~/proj")
  | None => False
  end.
Proof.
  destruct (get_pwd_tilde macos quiet unset true boot) as [r|] eqn:E.
  - split.
    + apply (basename_variant_copies_the_whole_path macos quiet unset boot r);
        [|exact E].
      intros p. eexists. reflexivity.
    + vm_compute in E. injection E as <-. reflexivity.
  - vm_compute in E. discriminate E.
Defined.

Lemma unresolved_home_shows_the_whole_path_witness :
  get_pwd_tilde macos unsized unset false boot =
  Some (PS (Heap 0) true,
        alloc_st (Block 17 (lit "/home/alice/proj")) boot).
Proof.
  apply (unresolved_home_shows_the_whole_path macos unsized unset boot
           (lit "home/alice/proj")); try reflexivity.
  - apply (bool_decide_unpack _). vm_compute. exact I.
  - vm_compute. lia.
Defined.

Lemma earlier_refused_allocation_is_undefined_witness :
  Earlier.format_error glibc (Static "!TIME!") 75 starved = None /\
  Earlier.get_formatted_time glibc quiet (Static "%H:%M") starved = None /\
  Earlier.get_username glibc quiet starved = None.
Proof.
  destruct (earlier_refused_allocation_is_undefined glibc quiet starved eq_refl)
    as (Hf & Ht & _ & Hu & _).
  split; [|split].
  - apply Hf. reflexivity.
  - apply (Ht 1700000000); [reflexivity | discriminate | vm_compute; lia].
  - apply (Hu 4096%nat). reflexivity.
Defined.

Lemma earlier_username_keeps_its_scratch_buffer_witness :
  exists st',
    Earlier.get_username macos quiet boot = Some (Heap 1, true, st') /\
    blocks st' !! 0%nat = Some (Block 4096 []) /\
    freed st' = [] /\
    (exists ps' st'', get_username macos quiet unset boot = Some (ps', st'') /\
                      blocks st'' !! 0%nat = None).
Proof.
  apply (earlier_username_keeps_its_scratch_buffer macos quiet boot 4096
           (Passwd (lit "alice") (lit "/home/alice"))); reflexivity.
Defined.

Lemma earlier_cwd_copy_overflows_witness :
  Earlier.get_pwd_tilde macos quiet false boot = None /\
  Earlier.get_pwd_tilde macos quiet true boot = None.
Proof.
  destruct (earlier_cwd_copy_overflows macos quiet boot (lit "/home/alice")
              (lit "/home/alice/proj") eq_refl eq_refl) as [H1 H2].
  - vm_compute. lia.
  - split; [exact H1|]. apply H2. intros p. eexists. reflexivity.
Defined.

(** ** Instances of the earlier lemmas *)

Lemma cwd_tilde_collapse_witness :
  get_pwd_tilde macos
    (with_home (Some (lit "/home/al")) (lit "/home/alice") quiet)
    unset false boot =
  Some (PS (Heap 0) true, alloc_st (Block 5 (lit "~ice")) boot).
Proof.
  apply (cwd_tilde_collapse macos
           (with_home (Some (lit "/home/al")) (lit "/home/alice") quiet)
           unset boot (lit "/home/al") (lit "ice")); try reflexivity.
  - discriminate.
  - apply (bool_decide_unpack _). vm_compute. exact I.
  - vm_compute. lia.
Defined.

Lemma cwd_tilde_unchanged_witness :
  get_pwd_tilde macos
    (with_home (Some (lit "/home/alice")) (lit "/etc") quiet)
    unset false boot =
  Some (PS (Heap 0) true, alloc_st (Block 5 (lit "/etc")) boot).
Proof.
  apply (cwd_tilde_unchanged macos
           (with_home (Some (lit "/home/alice")) (lit "/etc") quiet)
           unset boot (lit "/home/alice") (lit "/etc")); try reflexivity.
  - apply (bool_decide_unpack _). vm_compute. exact I.
  - vm_compute. lia.
Defined.

Lemma earlier_get_tty_basename_witness :
  Earlier.get_tty_basename macos quiet boot =
  Some (Static (lit "/dev/ttys003"), false,
        alloc_st (Block 1024 (lit "ttys003")) boot).
Proof.
  apply (earlier_get_tty_basename macos quiet boot (lit "/dev/ttys003")
           (lit "ttys003")); try reflexivity.
  vm_compute. lia.
Defined.

Lemma earlier_get_formatted_time_witness :
  Earlier.get_formatted_time macos quiet (Static "%H:%M") boot =
  (ps' ← get_formatted_time macos quiet unset (Static "%H:%M");
   mret (str ps', needs_free ps')) boot.
Proof.
  apply (earlier_get_formatted_time macos quiet unset (Static "%H:%M") boot).
  reflexivity.
Defined.
